(** * gmocky-v2: the mock-record store ([internal/mock.go])

    A shallow embedding of the store behind the mock HTTP server: the
    record type and its [Equals], the reference vocabularies of
    [pkg/content_types.go], and the four operations [Get], [List], [New] and
    [Clean] of [Mock], over an explicit model of the working directory.

    Conventions.
    - A Go [int] is a [Z]; the only arithmetic in the file ([len - maxLimit],
      [nb + 1]) stays far inside the 64-bit range, and [strconv.Atoi] checks
      the range itself.
    - A Go [string] is a [string] (a sequence of 8-bit characters) and [<]
      on strings is the bytewise lexicographic order.
    - A call that returns [(value, error)] with exactly one of them set is a
      sum [value + error]; [Clean], which returns a count next to the error,
      returns a pair.
    - [uuid.NewString()] and [time.Now().Format(..)] are inputs of [New].
    - Calls of the logger have no effect on any result and are left out. *)

From Stdlib Require Import ZArith String Ascii List Permutation Sorted Lia.
From Stdlib.Strings Require Import Byte.
From stdpp Require Import base option list gmap strings sorting pretty.

Local Open Scope Z_scope.

(** ** Data model *)

(** [type MockedRequest struct]. [Headers] is a Go map, which may be [nil]
    ([None]); [reflect.DeepEqual] tells a nil map from an empty one. A [nil]
    and an empty [Body] are the same list: [bytes.Equal] does not tell them
    apart. *)
Record MockedRequest := {
  UUID : string;
  CreatedAt : string;
  Status : Z;
  ContentType : string;
  Charset : string;
  Headers : option (gmap string string);
  Body : list byte
}.

(** [type MockedRequestLight struct]: the summary that [List] returns. *)
Module Light.
Record MockedRequestLight := {
  UUID : string;
  CreatedAt : string;
  Status : Z;
  ContentType : string
}.
End Light.
Abbreviation MockedRequestLight := Light.MockedRequestLight.

(** The summary held by the document that holds [m]: the four fields the two
    structs share. *)
Definition summary (m : MockedRequest) : MockedRequestLight :=
  {| Light.UUID := UUID m; Light.CreatedAt := CreatedAt m;
     Light.Status := Status m; Light.ContentType := ContentType m |}.

#[global] Instance byte_eq_dec : EqDecision byte := Byte.byte_eq_dec.

#[global] Instance MockedRequestLight_eq_dec : EqDecision MockedRequestLight.
Proof. solve_decision. Defined.

#[global] Instance MockedRequest_eq_dec : EqDecision MockedRequest.
Proof. solve_decision. Defined.

(** [bytes.Equal]. *)
Definition bytes_Equal (a b : list byte) : bool := bool_decide (a = b).

(** [reflect.DeepEqual] on two [map[string]string]: both nil, or both not nil
    with the same entries. *)
Definition DeepEqual (a b : option (gmap string string)) : bool :=
  bool_decide (a = b).

(** [func (m MockedRequest) Equals(arg MockedRequest) bool] *)
Definition Equals (m arg : MockedRequest) : bool :=
  (Status m =? Status arg) &&
  String.eqb (ContentType m) (ContentType arg) &&
  String.eqb (Charset m) (Charset arg) &&
  bytes_Equal (Body m) (Body arg) &&
  DeepEqual (Headers m) (Headers arg).

(** The Go [error] values of the file: the three [fmt.Errorf] of [New], the
    path errors of [os] and [iosutil], and the errors of the JSON codec. *)
Inductive error :=
| ErrStatus (status : Z)
| ErrContentType (contentType : string)
| ErrCharset (charset : string)
| ErrPath (op path : string)
| ErrJSON (what : string).

#[global] Instance error_eq_dec : EqDecision error.
Proof. solve_decision. Defined.

(** [err.Error()]: the message of each error, [%d] printed in decimal. *)
Definition Error (e : error) : string :=
  match e with
  | ErrStatus status => "status {" +:+ pretty status +:+ "} does not exist"
  | ErrContentType ct => "content type {" +:+ ct +:+ "} does not exist"
  | ErrCharset cs => "charset {" +:+ cs +:+ "} does not exist"
  | ErrPath op path => op +:+ " " +:+ path
  | ErrJSON what => what
  end.

(** ** Reference vocabularies ([pkg/content_types.go]) *)

Definition CONTENT_TYPES : list string :=
  [ "application/json";
    "application/x-www-form-urlencoded";
    "application/xhtml+xml";
    "application/xml";
    "image/jpeg";
    "image/png";
    "image/svg+xml";
    "multipart/form-data";
    "text/css";
    "text/csv";
    "text/html";
    "text/json";
    "text/plain";
    "text/xml" ].

Definition CHARSET : list string := [ "UTF-8"; "ISO-8859-1"; "UTF-16" ].

(** ** Library calls

    The functions of Go's standard library and of [go-utils] that the file
    calls, each modelled by what it returns. *)

(** [int] is 64 bits wide. *)
Definition minInt : Z := - 2 ^ 63.
Definition maxInt : Z := 2 ^ 63 - 1.

Definition digit (c : ascii) : option Z :=
  let n := Z.of_N (N_of_ascii c) in
  if (48 <=? n) && (n <=? 57) then Some (n - 48) else None.

Fixpoint digits (acc : Z) (s : string) : option Z :=
  match s with
  | EmptyString => Some acc
  | String c s' =>
      match digit c with
      | Some d => digits (10 * acc + d) s'
      | None => None
      end
  end.

(** [strconv.Atoi]: an optional sign, then one or more decimal digits and
    nothing else; a value outside [int] is an error. *)
Definition Atoi (s : string) : option Z :=
  let '(neg, body) :=
    match s with
    | String "+"%char r => (false, r)
    | String "-"%char r => (true, r)
    | _ => (false, s)
    end in
  match body with
  | EmptyString => None
  | _ =>
      match digits 0 body with
      | Some n =>
          let v := if neg : bool then - n else n in
          if (minInt <=? v) && (v <=? maxInt) then Some v else None
      | None => None
      end
  end.

(** [stringsutil.Int(value, defaultValue)]: [strconv.Atoi], or the default
    when that fails. *)
Definition Int (value : string) (defaultValue : Z) : Z :=
  match Atoi value with
  | Some i => i
  | None => defaultValue
  end.

(** [slicesutil.Exist(slice, value)] *)
Definition Exist (slice : list string) (value : string) : bool :=
  bool_decide (value ∈ slice).

(** [slicesutil.TransformT(arr, transform)]: the transformed values, in
    order, of the elements whose transform returns no error; it returns a
    slice only, so an element whose transform fails is left out. *)
Fixpoint TransformT {T U : Type} (arr : list T) (transform : T → U + error)
  : list U :=
  match arr with
  | [] => []
  | v :: arr' =>
      match transform v with
      | inl value => value :: TransformT arr' transform
      | inr _ => TransformT arr' transform
      end
  end.

(** Stable insertion of [x] into a list sorted by [less]: [x] goes before the
    first element that is not less than it. *)
Fixpoint insertBy {T : Type} (less : T → T → bool) (x : T) (l : list T)
  : list T :=
  match l with
  | [] => [x]
  | y :: l' => if less y x then y :: insertBy less x l' else x :: y :: l'
  end.

(** [sort.SliceStable(slice, less)] *)
Definition SliceStable {T : Type} (less : T → T → bool) (slice : list T)
  : list T :=
  foldr (insertBy less) [] slice.

(** [slicesutil.SortT(slice, compare)]: sorts by [less(x, y) := a < b] where
    [a, b := compare(x, y)], here at the ordered type [string]. *)
Definition SortT {T : Type} (slice : list T) (compare : T → T → string * string)
  : list T :=
  SliceStable (λ x y, String.ltb (compare x y).1 (compare x y).2) slice.

(** [genericsutil.OrElse(value, cond, orElse)] *)
Definition OrElse {T : Type} (value : T) (cond : unit → bool) (orElse : T) : T :=
  if cond () then value else orElse.

(** The value of a call that returned no error. *)
Definition ok {A : Type} (r : A + error) : option A :=
  match r with
  | inl a => Some a
  | inr _ => None
  end.

(** [jsonsutil.Marshal] and [jsonsutil.Unmarshal] at the two struct types of
    the file, over the type [Blob] of file contents. The store is proved
    against this interface; [JsonLaws] states what the store needs of the
    idealised format: a marshalled record unmarshals to itself, and into the
    summary struct to its summary. [encoding/json] meets the first law only
    for records whose text is valid UTF-8; [JsonRoundTrip] below states it
    so. *)
Class Json (Blob : Type) := {
  Marshal : MockedRequest → Blob + error;
  Unmarshal : Blob → MockedRequest + error;
  UnmarshalLight : Blob → MockedRequestLight + error
}.

Class JsonLaws (Blob : Type) `{Json Blob} : Prop := {
  Unmarshal_Marshal m b : Marshal m = inl b → Unmarshal b = inl m;
  UnmarshalLight_Marshal m b :
    Marshal m = inl b → UnmarshalLight b = inl (summary m)
}.

(** ** Text in a JSON document

    [encoding/json], behind [jsonsutil], writes every string as valid UTF-8:
    it reads the text rune by rune with [utf8.DecodeRuneInString] and writes
    the replacement character U+FFFD for each byte that starts no
    well-formed encoding. Text that is valid UTF-8 is read back as it was
    written. *)

Definition between (lo hi : N) (c : ascii) : bool :=
  ((lo <=? N_of_ascii c) && (N_of_ascii c <=? hi))%N.

(** A continuation byte, [0x80] to [0xBF]. *)
Definition continuation (c : ascii) : bool := between 128 191 c.

(** The second byte that may follow the lead byte [c0] of an encoding of
    three or four bytes (the accept ranges of [unicode/utf8]). *)
Definition second3 (c0 c1 : ascii) : bool :=
  (between 224 224 c0 && between 160 191 c1) ||
  (between 225 236 c0 && continuation c1) ||
  (between 237 237 c0 && between 128 159 c1) ||
  (between 238 239 c0 && continuation c1).

Definition second4 (c0 c1 : ascii) : bool :=
  (between 240 240 c0 && between 144 191 c1) ||
  (between 241 243 c0 && continuation c1) ||
  (between 244 244 c0 && between 128 143 c1).

(** [utf8.DecodeRuneInString]: the width of the well-formed encoding that
    starts [s], or [None] where it returns [RuneError] with width 1. *)
Definition runeWidth (s : string) : option nat :=
  match s with
  | EmptyString => None
  | String c0 s1 =>
      if between 0 127 c0 then Some 1%nat
      else
        match s1 with
        | EmptyString => None
        | String c1 s2 =>
            if between 194 223 c0
            then if continuation c1 then Some 2%nat else None
            else
              match s2 with
              | EmptyString => None
              | String c2 s3 =>
                  if second3 c0 c1
                  then if continuation c2 then Some 3%nat else None
                  else
                    match s3 with
                    | EmptyString => None
                    | String c3 _ =>
                        if second4 c0 c1 && continuation c2 && continuation c3
                        then Some 4%nat else None
                    end
              end
        end
  end.

(** [utf8.ValidString], with [inside] bytes of the current encoding still to
    pass. *)
Fixpoint validFrom (inside : nat) (s : string) : bool :=
  match s with
  | EmptyString => true
  | String _ s' =>
      match inside with
      | S n => validFrom n s'
      | O =>
          match runeWidth s with
          | Some width => validFrom (width - 1) s'
          | None => false
          end
      end
  end.

Definition ValidString (s : string) : bool := validFrom 0 s.

(** U+FFFD in UTF-8: [0xEF 0xBF 0xBD]. *)
Definition replacement : string :=
  String "239"%char (String "191"%char (String "189"%char EmptyString)).

(** The text that [encoding/json] writes for [s]: each byte that starts no
    well-formed encoding becomes U+FFFD. *)
Fixpoint coerceFrom (inside : nat) (s : string) : string :=
  match s with
  | EmptyString => EmptyString
  | String c s' =>
      match inside with
      | S n => String c (coerceFrom n s')
      | O =>
          match runeWidth s with
          | Some width => String c (coerceFrom (width - 1) s')
          | None => replacement +:+ coerceFrom 0 s'
          end
      end
  end.

Definition coerceUTF8 (s : string) : string := coerceFrom 0 s.

(** The record that a document written by [encoding/json] holds: the text of
    [m] coerced to valid UTF-8, header names and values included. *)
Definition coerceHeaders (headers : gmap string string) : gmap string string :=
  list_to_map
    ((λ nv, (coerceUTF8 nv.1, coerceUTF8 nv.2)) <$> map_to_list headers).

Definition coerced (m : MockedRequest) : MockedRequest :=
  {| UUID := coerceUTF8 (UUID m); CreatedAt := coerceUTF8 (CreatedAt m);
     Status := Status m; ContentType := coerceUTF8 (ContentType m);
     Charset := coerceUTF8 (Charset m);
     Headers := coerceHeaders <$> Headers m; Body := Body m |}.

(** Every name and every value of the headers is valid UTF-8. *)
Definition validHeaders (headers : gmap string string) : Prop :=
  map_Forall (λ name value, ValidString name = true ∧ ValidString value = true)
    headers.

(** All the text of a record is valid UTF-8. *)
Definition validText (m : MockedRequest) : Prop :=
  ValidString (UUID m) = true ∧ ValidString (CreatedAt m) = true ∧
  ValidString (ContentType m) = true ∧ ValidString (Charset m) = true ∧
  ∀ headers, Headers m = Some headers → validHeaders headers.

(** What the store needs of the format for a record to come back as it was
    written: a marshalled record whose text is valid UTF-8 unmarshals to
    itself. *)
Class JsonRoundTrip (Blob : Type) `{Json Blob} : Prop := {
  Unmarshal_Marshal_valid m b :
    Marshal m = inl b → validText m → Unmarshal b = inl m
}.

(** ** The working directory

    One flat directory: a file [workingDirectory/name] is the entry [name].
    Each OS call can fail: [os.ReadDir] when the directory cannot be listed,
    a read when the file is missing or unreadable, a write when the directory
    takes no writes, [os.Remove] when the file is missing or cannot be
    removed. *)
Record File (Blob : Type) := {
  content : Blob;
  readable : bool;
  removable : bool
}.
Arguments content {Blob} _.
Arguments readable {Blob} _.
Arguments removable {Blob} _.

Record Storage (Blob : Type) := {
  files : gmap string (File Blob);
  listable : bool;
  writable : bool
}.
Arguments files {Blob} _.
Arguments listable {Blob} _.
Arguments writable {Blob} _.

Section OS.
Context {Blob : Type}.

Definition withFiles (s : Storage Blob) (fs : gmap string (File Blob))
  : Storage Blob :=
  {| files := fs; listable := listable s; writable := writable s |}.

(** [os.ReadDir]: the names of the entries, sorted by name. *)
Definition ReadDir (s : Storage Blob) : list string + error :=
  if listable s
  then inl (SliceStable String.ltb (map_to_list (files s)).*1)
  else inr (ErrPath "open" "").

(** [iosutil.Load(path)] *)
Definition Load (name : string) (s : Storage Blob) : Blob + error :=
  match files s !! name with
  | Some f => if readable f then inl (content f) else inr (ErrPath "open" name)
  | None => inr (ErrPath "open" name)
  end.

(** [iosutil.Write(data, path)]: creates the file, or replaces the content of
    the one that is there. *)
Definition Write (data : Blob) (name : string) (s : Storage Blob)
  : Storage Blob + error :=
  if writable s
  then
    let f :=
      match files s !! name with
      | Some old =>
          {| content := data; readable := readable old;
             removable := removable old |}
      | None => {| content := data; readable := true; removable := true |}
      end in
    inl (withFiles s (<[name := f]> (files s)))
  else inr (ErrPath "write" name).

(** [os.Remove(path)] *)
Definition Remove (name : string) (s : Storage Blob) : Storage Blob + error :=
  match files s !! name with
  | Some f =>
      if removable f
      then inl (withFiles s (delete name (files s)))
      else inr (ErrPath "remove" name)
  | None => inr (ErrPath "remove" name)
  end.

End OS.

(** ** The store ([type Mock struct] and its methods) *)

Section Mock.
Context {Blob : Type} `{!Json Blob}.

(** [pkg.HTTP_CODES], the [map[int]string] of the supported status codes.
    The file that declares it is not at hand, so the table is a
    parameter. *)
Variable HTTP_CODES : gmap Z string.

(** [func get[T any](workingDirectory, mockId string, logger)], which returns
    a [T] or an error; the type parameter is given by the [unmarshal] it
    selects. *)
Definition get {T : Type} (unmarshal : Blob → T + error)
    (s : Storage Blob) (mockId : string) : T + error :=
  match Load (mockId +:+ ".json") s with
  | inr err => inr err
  | inl bytes =>
      match unmarshal bytes with
      | inr err => inr err
      | inl mock => inl mock
      end
  end.

(** [func (m Mock) Get(mockId string)], a record or an error *)
Definition Get (s : Storage Blob) (mockId : string) : MockedRequest + error :=
  get Unmarshal s mockId.

(** The closure that [List] hands to [TransformT]: the entry's name without
    its last five characters, loaded as a summary. *)
Definition loadEntry (s : Storage Blob) (name : string)
  : MockedRequestLight + error :=
  let mockId :=
    if (5 <? String.length name)%nat
    then String.substring 0 (String.length name - 5) name
    else "" in
  get UnmarshalLight s mockId.

(** [func (m Mock) List()], the summaries or an error *)
Definition List (s : Storage Blob) : list MockedRequestLight + error :=
  match ReadDir s with
  | inr err => inr err
  | inl entries =>
      let values :=
        SortT (TransformT entries (loadEntry s))
          (λ mrl1 mrl2, (Light.CreatedAt mrl2, Light.CreatedAt mrl1)) in
      inl (OrElse values (λ _, (0 <? length values)%nat) [])
  end.

(** [getReqParam] of [New] *)
Definition getReqParam (values : list string) : string :=
  match values with
  | [] => ""
  | v :: _ => v
  end.

(** The body of the loop of [New] over [reqParams]: the [switch] on the
    parameter's name. *)
Definition setParam (name : string) (values : list string)
    (mock : MockedRequest) : MockedRequest :=
  if String.eqb name "contentType" then
    {| UUID := UUID mock; CreatedAt := CreatedAt mock; Status := Status mock;
       ContentType := getReqParam values; Charset := Charset mock;
       Headers := Headers mock; Body := Body mock |}
  else if String.eqb name "charset" then
    {| UUID := UUID mock; CreatedAt := CreatedAt mock; Status := Status mock;
       ContentType := ContentType mock; Charset := getReqParam values;
       Headers := Headers mock; Body := Body mock |}
  else if String.eqb name "status" then
    {| UUID := UUID mock; CreatedAt := CreatedAt mock;
       Status := Int (getReqParam values) (-1);
       ContentType := ContentType mock; Charset := Charset mock;
       Headers := Headers mock; Body := Body mock |}
  else
    match values with
    | [] => mock
    | v :: _ =>
        {| UUID := UUID mock; CreatedAt := CreatedAt mock;
           Status := Status mock; ContentType := ContentType mock;
           Charset := Charset mock;
           Headers := insert name v <$> Headers mock; Body := Body mock |}
    end.

(** The record that [New] builds before it validates: the struct literal
    (a field it does not name is the zero value, [0] or [""]), then the loop
    over the parameters. A Go map is ranged over in no fixed order; the fold
    visits each parameter once. *)
Definition candidate (uuid now : string)
    (reqParams : gmap string (list string)) (reqBody : list byte)
  : MockedRequest :=
  map_fold setParam
    {| UUID := uuid; CreatedAt := now; Status := 0; ContentType := "";
       Charset := ""; Headers := Some ∅; Body := reqBody |}
    reqParams.

(** [func (m Mock) New(reqParams map[string][]string, reqBody []byte)], the
    new identifier or an error, with the fresh identifier and the current
    time as inputs; it returns the storage it leaves behind. *)
Definition New (uuid now : string) (reqParams : gmap string (list string))
    (reqBody : list byte) (s : Storage Blob)
  : Storage Blob * (string + error) :=
  let mock := candidate uuid now reqParams reqBody in
  match HTTP_CODES !! Status mock with
  | None => (s, inr (ErrStatus (Status mock)))
  | Some _ =>
      if negb (Exist CONTENT_TYPES (ContentType mock))
      then (s, inr (ErrContentType (ContentType mock)))
      else if negb (Exist CHARSET (Charset mock))
      then (s, inr (ErrCharset (Charset mock)))
      else
        match Marshal mock with
        | inr err => (s, inr err)
        | inl reqBody' =>
            match Write reqBody' (UUID mock +:+ ".json") s with
            | inr err => (s, inr err)
            | inl s' => (s', inl (UUID mock))
            end
        end
  end.

(** One turn of the loop of [Clean]: the count goes up only when [os.Remove]
    returns no error. *)
Definition removeOne (acc : Storage Blob * Z) (mockedRequest : MockedRequestLight)
  : Storage Blob * Z :=
  match Remove (Light.UUID mockedRequest +:+ ".json") acc.1 with
  | inl s' => (s', acc.2 + 1)
  | inr _ => acc
  end.

(** [func (m Mock) Clean(maxLimit int)], a count and an error or [nil] *)
Definition Clean (maxLimit : Z) (s : Storage Blob)
  : Storage Blob * (Z * option error) :=
  let nb := 0 in
  if maxLimit <? 1 then (s, (nb, None))
  else
    match List s with
    | inr err => (s, (nb, Some err))
    | inl mockedRequests =>
        let nbToDelete := Z.of_nat (length mockedRequests) - maxLimit in
        if nbToDelete <? 1 then (s, (nb, None))
        else
          let '(s', nb') :=
            foldl removeOne (s, nb)
              (drop (Z.to_nat (Z.of_nat (length mockedRequests) - nbToDelete))
                 mockedRequests) in
          (s', (nb', None))
    end.

End Mock.

(** ** The content types that are displayed ([pkg/content_types.go]) *)

(** [slicesutil.FilterT(slice, predicate)]: the elements that satisfy the
    predicate, in their order. *)
Definition FilterT {T : Type} (slice : list T) (predicate : T → bool) : list T :=
  List.filter predicate slice.

(** [strings.Contains(s, substr)]: [substr] starts at some position of [s]. *)
Fixpoint Contains (s substr : string) : bool :=
  String.prefix substr s ||
  match s with
  | EmptyString => false
  | String _ s' => Contains s' substr
  end.

(** [var IS_DISPLAY_CONTENT] *)
Definition IS_DISPLAY_CONTENT : list string :=
  FilterT CONTENT_TYPES (λ arg,
    String.eqb arg "application/json" || String.eqb arg "application/xml" ||
    Contains arg "text/").

(** ** Sequences of creations *)

(** One call of [New]: the identifier and the time it draws, and its two
    arguments. *)
Record creation := {
  newUUID : string;
  newTime : string;
  newParams : gmap string (list string);
  newBody : list byte
}.

(** The record that a creation asks for. *)
Definition created (c : creation) : MockedRequest :=
  candidate (newUUID c) (newTime c) (newParams c) (newBody c).

Section Creations.
Context {Blob : Type} `{!Json Blob}.
Variable HTTP_CODES : gmap Z string.

(** The calls of [New] of a client, one after the other, each on the storage
    the one before left; it stops at the first that returns an error. *)
Fixpoint creates (calls : list creation) (s : Storage Blob)
  : Storage Blob + error :=
  match calls with
  | [] => inl s
  | c :: calls' =>
      match New HTTP_CODES (newUUID c) (newTime c) (newParams c) (newBody c) s
      with
      | (s', inl _) => creates calls' s'
      | (_, inr err) => inr err
      end
  end.

End Creations.

(** ** The response writer *)

(** Modelled from the spec: the response writer ([NewResponse] and
    [Response.Write]) is missing from the sources, which hold only its tests.
    The delay it waits is [0] when the requested delay is absent or cannot be
    parsed ([None]), and otherwise the lesser of the requested delay and the
    maximum delay the server was started with. Durations are integers, in
    nanoseconds as [time.Duration] has them. *)
Definition effectiveDelay (maxDelay : Z) (requested : option Z) : Z :=
  match requested with
  | None => 0
  | Some delay => Z.min delay maxDelay
  end.

Definition millisecond : Z := 1000000.
Definition second : Z := 1000 * millisecond.

(** ** Notions used in the statements *)

(** [x] may stand before [y] in a slice sorted by [less]: [y] is not less
    than [x]. *)
Definition notAfter {T : Type} (less : T → T → bool) (x y : T) : Prop :=
  less y x = false.

(** The three parameter names that [New] routes to typed fields. *)
Definition reserved (name : string) : bool :=
  String.eqb name "contentType" || String.eqb name "charset" ||
  String.eqb name "status".

(** The fields that the parameters of a request name: the status is [0]
    when no parameter is called [status], and otherwise what
    [stringsutil.Int] makes of its first value with the default [-1]. *)
Definition paramStatus (reqParams : gmap string (list string)) : Z :=
  match reqParams !! "status" with
  | Some values => Int (getReqParam values) (-1)
  | None => 0
  end.

Definition paramContentType (reqParams : gmap string (list string)) : string :=
  from_option getReqParam "" (reqParams !! "contentType").

Definition paramCharset (reqParams : gmap string (list string)) : string :=
  from_option getReqParam "" (reqParams !! "charset").

(** The headers that the parameters of a request carry: the first value of
    every parameter that has one and whose name is not reserved. *)
Definition paramHeaders (reqParams : gmap string (list string))
  : gmap string string :=
  omap head (filter (λ nv, reserved nv.1 = false) reqParams).

(** What the loop of [New] leaves in each field, read off the parameters by
    name: whatever the order in which the map is ranged over. *)
Definition built (uuid now : string) (reqBody : list byte)
    (reqParams : gmap string (list string)) (mock : MockedRequest) : Prop :=
  UUID mock = uuid ∧ CreatedAt mock = now ∧ Body mock = reqBody ∧
  Status mock = paramStatus reqParams ∧
  ContentType mock = paramContentType reqParams ∧
  Charset mock = paramCharset reqParams ∧
  Headers mock = Some (paramHeaders reqParams).

(** The parameters of a creation request that asks for the record [c]: its
    status in decimal, its content type and its charset first under their
    reserved names, and its headers as the other parameters. *)
Definition describes (reqParams : gmap string (list string)) (c : MockedRequest)
  : Prop :=
  (∃ status rest,
      reqParams !! "status" = Some (status :: rest) ∧
      Atoi status = Some (Status c)) ∧
  (∃ rest, reqParams !! "contentType" = Some (ContentType c :: rest)) ∧
  (∃ rest, reqParams !! "charset" = Some (Charset c :: rest)) ∧
  Headers c = Some (paramHeaders reqParams).

(** The order of [List]: [a] may stand before [b] when [b] was not created
    after [a]. *)
Definition newestFirst (a b : MockedRequestLight) : Prop :=
  String.leb (Light.CreatedAt b) (Light.CreatedAt a) = true.

(** The name of the file of a summary. *)
Definition fileOf (m : MockedRequestLight) : string :=
  Light.UUID m +:+ ".json".

Section Notions.
Context {Blob : Type} `{!Json Blob}.

(** The summary that reading and decoding a file yields, if any. *)
Definition summaryOf (f : File Blob) : option MockedRequestLight :=
  if readable f then ok (UnmarshalLight (content f)) else None.

(** The summaries of the files of the directory. *)
Definition summaries (s : Storage Blob) : list MockedRequestLight :=
  omap (λ nf, summaryOf nf.2) (map_to_list (files s)).

(** Every entry of the directory is called [<id>.json]. *)
Definition namedJson (s : Storage Blob) : Prop :=
  ∀ name, is_Some (files s !! name) → ∃ id, name = id +:+ ".json".

(** A directory as [New] fills it: every file can be removed, and holds the
    readable document of a record under the name of its identifier. *)
Definition consistent (s : Storage Blob) : Prop :=
  map_Forall
    (λ name f, removable f = true ∧ fileOf <$> summaryOf f = Some name)
    (files s).

End Notions.

(** ** A reference instance

    The concrete examples below run the store on a format in which a file
    either holds the document of a record or is not JSON at all, and on a
    table with a few of the status codes. The theorems hold for every format
    and every table. *)

Inductive Document :=
| Doc (m : MockedRequest)
| NotJSON (raw : string).

#[global] Instance Document_Json : Json Document := {|
  Marshal m := inl (Doc m);
  Unmarshal d :=
    match d with
    | Doc m => inl m
    | NotJSON _ => inr (ErrJSON "invalid character")
    end;
  UnmarshalLight d :=
    match d with
    | Doc m => inl (summary m)
    | NotJSON _ => inr (ErrJSON "invalid character")
    end
|}.

Definition someCodes : gmap Z string :=
  {[ 200 := "OK"; 201 := "Created"; 404 := "Not Found" ]}.

Definition emptyDir : Storage Document :=
  {| files := ∅; listable := true; writable := true |}.

Definition plainFile (d : Document) : File Document :=
  {| content := d; readable := true; removable := true |}.

Definition record (uuid now : string) : MockedRequest :=
  {| UUID := uuid; CreatedAt := now; Status := 200;
     ContentType := "text/plain"; Charset := "UTF-8";
     Headers := Some ∅; Body := [] |}.

(** Three records created one second apart. *)
Definition threeRecords : Storage Document :=
  {| files :=
       {[ "a.json" := plainFile (Doc (record "a" "2024-05-01 10:00:02"));
          "b.json" := plainFile (Doc (record "b" "2024-05-01 10:00:01"));
          "c.json" := plainFile (Doc (record "c" "2024-05-01 10:00:03")) ]};
     listable := true; writable := true |}.

(** The same directory with a file that is not JSON next to the records. *)
Definition oneCorrupt : Storage Document :=
  withFiles threeRecords
    (<["d.json" := plainFile (NotJSON "{")]> (files threeRecords)).

(** The same directory with the file of [b] protected against removal. *)
Definition oneLocked : Storage Document :=
  withFiles threeRecords
    (<["b.json" :=
         {| content := Doc (record "b" "2024-05-01 10:00:01");
            readable := true; removable := false |}]> (files threeRecords)).

(** A directory that cannot be listed. *)
Definition unlistable : Storage Document :=
  {| files := files threeRecords; listable := false; writable := true |}.

(** The parameters of a creation request: status 200, [text/plain] in
    UTF-8, and one header. *)
Definition helloParams : gmap string (list string) :=
  {[ "status" := ["200"]; "contentType" := ["text/plain"];
     "charset" := ["UTF-8"]; "x-language" := ["golang"] ]}.

(** The record of the tests of the response writer. *)
Definition helloRecord : MockedRequest :=
  {| UUID := ""; CreatedAt := ""; Status := 200;
     ContentType := "text/plain"; Charset := "UTF-8";
     Headers := Some {[ "x-language" := "golang" ]};
     Body := String.list_byte_of_string "Hello World" |}.

(** A request whose status and content type are both outside their
    vocabularies. *)
Definition unknownParams : gmap string (list string) :=
  {[ "status" := ["299"]; "contentType" := ["text/unknown"];
     "charset" := ["UTF-8"] ]}.

(** A decidable proposition about concrete data, by evaluation. *)
Ltac by_compute := apply (bool_decide_unpack _); vm_compute; exact I.

(** Three creations, one second apart. *)
Definition threeCreations : list creation :=
  [ {| newUUID := "0b1f"; newTime := "2024-05-01 10:00:00";
       newParams := helloParams; newBody := [] |};
    {| newUUID := "7c2e"; newTime := "2024-05-01 10:00:01";
       newParams := helloParams; newBody := [] |};
    {| newUUID := "a9d3"; newTime := "2024-05-01 10:00:02";
       newParams := helloParams; newBody := [] |} ].

(** A directory that takes no writes. *)
Definition readOnlyDir : Storage Document :=
  {| files := ∅; listable := true; writable := false |}.

(** The reference format as [encoding/json] writes it: the document of a
    record holds its text coerced to valid UTF-8. *)
Record JsonFile := { document : Document }.

#[global] Instance JsonFile_Json : Json JsonFile := {|
  Marshal m := inl {| document := Doc (coerced m) |};
  Unmarshal file := Unmarshal (document file);
  UnmarshalLight file := UnmarshalLight (document file)
|}.

Definition emptyJsonDir : Storage JsonFile :=
  {| files := ∅; listable := true; writable := true |}.

(** The byte [0xFF], which is no UTF-8. *)
Definition xFF : string := String "255"%char EmptyString.

(** The request of [helloParams] with one more header, whose value is the
    byte [0xFF], and the record it asks for. *)
Definition binParams : gmap string (list string) :=
  <["x-bin" := [xFF]]> helloParams.

Definition binRecord : MockedRequest :=
  {| UUID := ""; CreatedAt := ""; Status := 200;
     ContentType := "text/plain"; Charset := "UTF-8";
     Headers := Some {[ "x-language" := "golang"; "x-bin" := xFF ]};
     Body := String.list_byte_of_string "Hello World" |}.

(** * Proofs *)

(** ** Facts about the library calls *)

Section Library.
Context {T U : Type}.

Lemma TransformT_omap (arr : list T) (transform : T → U + error) :
  TransformT arr transform = omap (λ v, ok (transform v)) arr.
Proof.
  induction arr as [|v arr IH]; simpl; [done|].
  destruct (transform v); simpl; by rewrite IH.
Qed.

Variable less : T → T → bool.

Lemma insertBy_Permutation x l : insertBy less x l ≡ₚ x :: l.
Proof.
  induction l as [|y l IH]; simpl; [done|].
  destruct (less y x); [|done].
  rewrite IH. apply perm_swap.
Qed.

Lemma SliceStable_Permutation l : SliceStable less l ≡ₚ l.
Proof.
  unfold SliceStable. induction l as [|x l IH]; simpl; [done|].
  by rewrite insertBy_Permutation, IH.
Qed.

Hypothesis less_asym : ∀ x y, less x y = true → less y x = false.
Hypothesis notAfter_trans :
  ∀ x y z, notAfter less x y → notAfter less y z → notAfter less x z.

Lemma insertBy_sorted x l :
  StronglySorted (notAfter less) l →
  StronglySorted (notAfter less) (insertBy less x l).
Proof.
  induction 1 as [|y l Hl IH Hy]; simpl.
  - repeat constructor.
  - destruct (less y x) eqn:Hyx.
    + constructor; [done|].
      rewrite insertBy_Permutation. constructor; [|done].
      by apply less_asym.
    + constructor; [by constructor|].
      constructor; [done|].
      eapply Forall_impl; [exact Hy|].
      intros z Hz. by apply notAfter_trans with y.
Qed.

Lemma SliceStable_sorted l : StronglySorted (notAfter less) (SliceStable less l).
Proof.
  unfold SliceStable. induction l as [|x l IH]; simpl.
  - constructor.
  - by apply insertBy_sorted.
Qed.

End Library.

Lemma StronglySorted_mono {A : Type} (R R' : A → A → Prop) l :
  (∀ a b, R a b → R' a b) → StronglySorted R l → StronglySorted R' l.
Proof.
  intros Himpl. induction 1 as [|a l Hl IH Ha]; constructor; [done|].
  eapply Forall_impl; [exact Ha|]. intros b. apply Himpl.
Qed.

Lemma omap_fst_ext {A B C : Type} (f : A → option C) (g : A * B → option C)
    (l : list (A * B)) :
  (∀ x, x ∈ l → f x.1 = g x) → omap f l.*1 = omap g l.
Proof.
  induction l as [|x l IH]; intros Hall; [done|].
  change (omap f (x :: l).*1) with
    (match f x.1 with Some y => y :: omap f l.*1 | None => omap f l.*1 end).
  change (omap g (x :: l)) with
    (match g x with Some y => y :: omap g l | None => omap g l end).
  rewrite (Hall x) by left.
  rewrite IH; [done|]. intros y Hy. apply Hall. by right.
Qed.

Lemma omap_length_le {A B : Type} (f : A → option B) (l : list A) :
  (length (omap f l) ≤ length l)%nat.
Proof.
  induction l as [|x l IH]; csimpl; [done|].
  destruct (f x); simpl; lia.
Qed.

Lemma omap_length_all {A B : Type} (f : A → option B) (l : list A) :
  (∀ x, x ∈ l → is_Some (f x)) → length (omap f l) = length l.
Proof.
  induction l as [|x l IH]; intros Hall; csimpl; [done|].
  destruct (Hall x) as [y ->]; [left|]. simpl. f_equal.
  apply IH. intros z Hz. apply Hall. by right.
Qed.

(** Go's [<] on strings against the order of [String.leb]. *)
Lemma ltb_false_le x y : String.ltb x y = false ↔ String.le y x.
Proof.
  unfold String.le, String.ltb, String.leb.
  rewrite (String.compare_antisym y x).
  destruct (String.compare x y); simpl; naive_solver.
Qed.

Lemma ltb_asym x y : String.ltb x y = true → String.ltb y x = false.
Proof.
  unfold String.ltb. rewrite (String.compare_antisym y x).
  by destruct (String.compare x y).
Qed.

Lemma leb_ltb x y : String.leb x y = true ↔ String.ltb y x = false.
Proof.
  rewrite ltb_false_le. unfold String.le. by rewrite Is_true_true.
Qed.

Lemma substring_app_l u v :
  String.substring 0 (String.length u) (u +:+ v) = u.
Proof.
  induction u as [|c u IH]; simpl.
  - by destruct v.
  - by rewrite IH.
Qed.

Lemma length_app u v :
  String.length (u +:+ v) = (String.length u + String.length v)%nat.
Proof. induction u as [|c u IH]; simpl; [done|]. by rewrite IH. Qed.

Lemma OrElse_nonempty {T : Type} (values : list T) :
  OrElse values (λ _, (0 <? length values)%nat) [] = values.
Proof. unfold OrElse. destruct values; reflexivity. Qed.

Lemma SortT_CreatedAt_sorted (values : list MockedRequestLight) :
  StronglySorted newestFirst
    (SortT values (λ mrl1 mrl2, (Light.CreatedAt mrl2, Light.CreatedAt mrl1))).
Proof.
  unfold SortT. simpl.
  eapply StronglySorted_mono;
    [|apply SliceStable_sorted with (less := λ x y,
         String.ltb (Light.CreatedAt y) (Light.CreatedAt x))].
  - intros a b Hab. unfold notAfter in Hab. by apply leb_ltb.
  - intros x y. apply ltb_asym.
  - unfold notAfter. intros x y z Hxy Hyz.
    apply ltb_false_le. apply ltb_false_le in Hxy, Hyz.
    by etrans.
Qed.

Lemma Exist_true slice value : Exist slice value = true ↔ value ∈ slice.
Proof. unfold Exist. apply bool_decide_eq_true. Qed.

Lemma Exist_false slice value : Exist slice value = false ↔ value ∉ slice.
Proof. unfold Exist. apply bool_decide_eq_false. Qed.

(** ** The record built from the parameters *)

Lemma paramHeaders_lookup reqParams name :
  paramHeaders reqParams !! name =
    if reserved name then None else reqParams !! name ≫= head.
Proof.
  unfold paramHeaders. rewrite lookup_omap.
  destruct (reserved name) eqn:Hr.
  - rewrite map_lookup_filter_None_2; [done|].
    right. intros x _. simpl. congruence.
  - destruct (reqParams !! name) as [values|] eqn:Hv.
    + by rewrite (map_lookup_filter_Some_2 _ _ name values).
    + rewrite map_lookup_filter_None_2; [done|]. by left.
Qed.

Lemma paramHeaders_insert_reserved reqParams name values :
  reserved name = true →
  paramHeaders (<[name := values]> reqParams) = paramHeaders reqParams.
Proof.
  intros Hr. apply map_eq. intros k. rewrite !paramHeaders_lookup.
  destruct (reserved k) eqn:Hk; [done|].
  rewrite lookup_insert_ne; [done|]. intros ->. congruence.
Qed.

Lemma paramHeaders_insert_empty reqParams name :
  reqParams !! name = None →
  paramHeaders (<[name := []]> reqParams) = paramHeaders reqParams.
Proof.
  intros Hfresh. apply map_eq. intros k. rewrite !paramHeaders_lookup.
  destruct (reserved k) eqn:Hk; [done|].
  destruct (decide (name = k)) as [->|Hne].
  - by rewrite lookup_insert_eq, Hfresh.
  - by rewrite lookup_insert_ne.
Qed.

Lemma paramHeaders_insert_value reqParams name v values :
  reserved name = false →
  paramHeaders (<[name := v :: values]> reqParams) =
    <[name := v]> (paramHeaders reqParams).
Proof.
  intros Hr. apply map_eq. intros k.
  destruct (decide (name = k)) as [->|Hne].
  - by rewrite paramHeaders_lookup, !lookup_insert_eq, Hr.
  - by rewrite paramHeaders_lookup, !lookup_insert_ne, paramHeaders_lookup.
Qed.

(** The loop of [New], by induction over the parameters in the order the fold
    visits them. *)
Lemma candidate_built uuid now reqParams reqBody :
  built uuid now reqBody reqParams (candidate uuid now reqParams reqBody).
Proof.
  unfold candidate.
  apply (map_fold_weak_ind (λ mock m, built uuid now reqBody m mock));
    unfold built, paramStatus, paramContentType, paramCharset.
  - simpl. by repeat split.
  - intros name values m mock Hfresh (Hu & Hc & Hb & Hs & Hct & Hcs & Hh).
    unfold setParam.
    destruct (String.eqb_spec name "contentType") as [->|Hn1];
      [|destruct (String.eqb_spec name "charset") as [->|Hn2];
        [|destruct (String.eqb_spec name "status") as [->|Hn3]]].
    + simpl. rewrite lookup_insert_eq, !lookup_insert_ne by done.
      by rewrite paramHeaders_insert_reserved.
    + simpl. rewrite lookup_insert_eq, !lookup_insert_ne by done.
      by rewrite paramHeaders_insert_reserved.
    + simpl. rewrite lookup_insert_eq, !lookup_insert_ne by done.
      by rewrite paramHeaders_insert_reserved.
    + assert (reserved name = false) as Hres.
      { unfold reserved.
        by rewrite (proj2 (String.eqb_neq _ _) Hn1),
          (proj2 (String.eqb_neq _ _) Hn2), (proj2 (String.eqb_neq _ _) Hn3). }
      rewrite !lookup_insert_ne by done.
      destruct values as [|v values]; simpl.
      * by rewrite paramHeaders_insert_empty.
      * rewrite paramHeaders_insert_value by done.
        by rewrite Hh.
Qed.

(** ** [Equals] *)

Lemma Equals_iff (m arg : MockedRequest) :
  Equals m arg = true ↔
    Status m = Status arg ∧ ContentType m = ContentType arg ∧
    Charset m = Charset arg ∧ Body m = Body arg ∧ Headers m = Headers arg.
Proof.
  unfold Equals, bytes_Equal, DeepEqual.
  rewrite !andb_true_iff, Z.eqb_eq, !String.eqb_eq, !bool_decide_eq_true.
  tauto.
Qed.

(** C9. [Equals] compares [Status], [ContentType], [Charset], [Body] and
    [Headers] and nothing else: it holds exactly when these five fields
    agree, so it holds between a record and the same record under any other
    [UUID] and [CreatedAt]. *)
Theorem Equals_ignores_UUID_CreatedAt (m arg : MockedRequest) :
  (Equals m arg = true ↔
     Status m = Status arg ∧ ContentType m = ContentType arg ∧
     Charset m = Charset arg ∧ Body m = Body arg ∧
     Headers m = Headers arg) ∧
  (∀ uuid createdAt,
     Equals m {| UUID := uuid; CreatedAt := createdAt; Status := Status m;
                 ContentType := ContentType m; Charset := Charset m;
                 Headers := Headers m; Body := Body m |} = true).
Proof.
  split; [apply Equals_iff|].
  intros uuid createdAt. by apply Equals_iff.
Qed.

(** ** The response writer *)

(** C6. The delay waited is [0] when the requested delay is absent or cannot
    be parsed, and otherwise the lesser of the requested delay and the
    maximum; a requested delay never makes the wait longer than the maximum,
    and no wait is longer than a maximum that is not negative. *)
Theorem effectiveDelay_capped (maxDelay : Z) (requested : option Z) :
  (requested = None → effectiveDelay maxDelay requested = 0) ∧
  (∀ delay, requested = Some delay →
     effectiveDelay maxDelay requested = Z.min delay maxDelay ∧
     effectiveDelay maxDelay requested ≤ maxDelay) ∧
  effectiveDelay maxDelay requested ≤ Z.max 0 maxDelay.
Proof.
  unfold effectiveDelay. split; [|split].
  - by intros ->.
  - intros delay ->. split; [done|lia].
  - destruct requested; lia.
Qed.

(** The two cases of the tests: a requested [30s] under a maximum of
    [1000ms] waits one second, and no requested delay waits nothing. *)
Example effectiveDelay_tests :
  effectiveDelay (1000 * millisecond) (Some (30 * second)) = 1 * second ∧
  effectiveDelay (60 * second) None = 0.
Proof. split; reflexivity. Qed.

(** ** Text that is valid UTF-8 *)

Lemma coerceFrom_valid inside s :
  validFrom inside s = true → coerceFrom inside s = s.
Proof.
  revert inside. induction s as [|c s IH]; intros inside; [done|].
  cbn [validFrom coerceFrom]. destruct inside as [|n].
  - destruct (runeWidth (String c s)) as [width|]; [|done].
    intros Hv. by rewrite (IH _ Hv).
  - intros Hv. by rewrite (IH _ Hv).
Qed.

Lemma coerceUTF8_valid s : ValidString s = true → coerceUTF8 s = s.
Proof. apply coerceFrom_valid. Qed.

Lemma coerceHeaders_valid headers :
  validHeaders headers → coerceHeaders headers = headers.
Proof.
  intros Hv. unfold coerceHeaders.
  rewrite <- (list_to_map_to_list headers) at 2. f_equal.
  rewrite <- (list_fmap_id (map_to_list headers)) at 2.
  apply list_fmap_ext. intros i [name value] Hin.
  apply list_elem_of_lookup_2, elem_of_map_to_list in Hin.
  destruct (Hv name value Hin) as [Hn Hval]. simpl.
  by rewrite (coerceUTF8_valid _ Hn), (coerceUTF8_valid _ Hval).
Qed.

Lemma coerced_valid m : validText m → coerced m = m.
Proof.
  intros (Hu & Hc & Hct & Hcs & Hh). destruct m as [u c st ct cs h b].
  unfold coerced. simpl in *.
  rewrite (coerceUTF8_valid _ Hu), (coerceUTF8_valid _ Hc),
    (coerceUTF8_valid _ Hct), (coerceUTF8_valid _ Hcs).
  f_equal. destruct h as [headers|]; [|done]. simpl.
  by rewrite (coerceHeaders_valid headers (Hh headers eq_refl)).
Qed.

Lemma CONTENT_TYPES_valid contentType :
  contentType ∈ CONTENT_TYPES → ValidString contentType = true.
Proof.
  assert (Forall (λ ct, ValidString ct = true) CONTENT_TYPES) as Hall
    by by_compute.
  rewrite Forall_forall in Hall. apply Hall.
Qed.

Lemma CHARSET_valid charset :
  charset ∈ CHARSET → ValidString charset = true.
Proof.
  assert (Forall (λ cs, ValidString cs = true) CHARSET) as Hall
    by by_compute.
  rewrite Forall_forall in Hall. apply Hall.
Qed.

(** The laws of the idealised format give the round trip of valid text. *)
Lemma JsonLaws_JsonRoundTrip {Blob : Type} `{!Json Blob} :
  JsonLaws Blob → JsonRoundTrip Blob.
Proof. intros Hlaws. split. intros m b Hm _. by apply Unmarshal_Marshal. Qed.

(** ** The store *)

Section Properties.
Context {Blob : Type} `{!Json Blob}.
Variable HTTP_CODES : gmap Z string.

(** *** [New] *)

(** [New] on a record that passes the three checks: it marshals it and
    writes the file. *)
Lemma New_valid uuid now reqParams reqBody (s : Storage Blob) :
  let mock := candidate uuid now reqParams reqBody in
  is_Some (HTTP_CODES !! Status mock) →
  ContentType mock ∈ CONTENT_TYPES →
  Charset mock ∈ CHARSET →
  New HTTP_CODES uuid now reqParams reqBody s =
    match Marshal mock with
    | inr err => (s, inr err)
    | inl b =>
        match Write b (uuid +:+ ".json") s with
        | inr err => (s, inr err)
        | inl s' => (s', inl uuid)
        end
    end.
Proof.
  intros mock [text Hst] Hct Hcs. unfold New. fold mock.
  rewrite Hst.
  rewrite (proj2 (Exist_true _ _) Hct), (proj2 (Exist_true _ _) Hcs). simpl.
  destruct (candidate_built uuid now reqParams reqBody) as (Hu & _).
  fold mock in Hu. by rewrite Hu.
Qed.

(** [New] on a record that fails a check: the three [if]s in their order. *)
Lemma New_invalid uuid now reqParams reqBody (s : Storage Blob) :
  let mock := candidate uuid now reqParams reqBody in
  (HTTP_CODES !! Status mock = None →
   New HTTP_CODES uuid now reqParams reqBody s =
     (s, inr (ErrStatus (Status mock)))) ∧
  (is_Some (HTTP_CODES !! Status mock) →
   ContentType mock ∉ CONTENT_TYPES →
   New HTTP_CODES uuid now reqParams reqBody s =
     (s, inr (ErrContentType (ContentType mock)))) ∧
  (is_Some (HTTP_CODES !! Status mock) →
   ContentType mock ∈ CONTENT_TYPES →
   Charset mock ∉ CHARSET →
   New HTTP_CODES uuid now reqParams reqBody s =
     (s, inr (ErrCharset (Charset mock)))).
Proof.
  intros mock. unfold New. fold mock. repeat split.
  - by intros ->.
  - intros [text ->] Hct.
    by rewrite (proj2 (Exist_false _ _) Hct).
  - intros [text ->] Hct Hcs.
    by rewrite (proj2 (Exist_true _ _) Hct), (proj2 (Exist_false _ _) Hcs).
Qed.

Lemma New_error uuid now reqParams reqBody (s s' : Storage Blob) err :
  New HTTP_CODES uuid now reqParams reqBody s = (s', inr err) → s' = s.
Proof.
  unfold New.
  repeat (case_match; simplify_eq/=; try done); by intros [= <- _].
Qed.

(** C3. A request whose status, content type or charset is outside its
    vocabulary is refused with the error that names the first field that
    fails, in the order status, content type, charset (an unknown status
    hides the other two), and the storage is left as it was. *)
Theorem New_rejects_invalid uuid now reqParams reqBody (s : Storage Blob) :
  let status := paramStatus reqParams in
  let contentType := paramContentType reqParams in
  let charset := paramCharset reqParams in
  (HTTP_CODES !! status = None →
   New HTTP_CODES uuid now reqParams reqBody s = (s, inr (ErrStatus status))) ∧
  (is_Some (HTTP_CODES !! status) →
   contentType ∉ CONTENT_TYPES →
   New HTTP_CODES uuid now reqParams reqBody s =
     (s, inr (ErrContentType contentType))) ∧
  (is_Some (HTTP_CODES !! status) →
   contentType ∈ CONTENT_TYPES →
   charset ∉ CHARSET →
   New HTTP_CODES uuid now reqParams reqBody s =
     (s, inr (ErrCharset charset))).
Proof.
  intros status contentType charset.
  pose proof (New_invalid uuid now reqParams reqBody s) as Hnew.
  destruct (candidate_built uuid now reqParams reqBody)
    as (_ & _ & _ & Hst & Hct & Hcs & _).
  simpl in Hnew. by rewrite Hst, Hct, Hcs in Hnew.
Qed.

(** *** The storage after a write *)

Lemma Write_inl b name (s s' : Storage Blob) :
  Write b name s = inl s' →
  writable s = true ∧ listable s' = listable s ∧ writable s' = writable s ∧
  ∃ f, content f = b ∧ files s' = <[name := f]> (files s) ∧
       match files s !! name with
       | Some old => readable f = readable old ∧ removable f = removable old
       | None => readable f = true ∧ removable f = true
       end.
Proof.
  unfold Write. destruct (writable s) eqn:Hw; [|done].
  intros [= <-]. simpl. repeat split; try done.
  eexists. split; [|split; [done|]].
  - by destruct (files s !! name).
  - by destruct (files s !! name).
Qed.

Lemma Write_writable b name (s : Storage Blob) :
  writable s = true → ∃ s', Write b name s = inl s'.
Proof. intros Hw. unfold Write. rewrite Hw. by eexists. Qed.

(** C10 (amended). [New] writes a file only for a record whose status is a
    supported code, whose content type is in [CONTENT_TYPES] and whose
    charset is in [CHARSET], and an error leaves the storage as it was. A
    request with no [status] parameter has status [0]; one whose [status] has
    no value, or a first value that [strconv.Atoi] refuses, has status [-1];
    over a table that holds neither [0] nor [-1] both are refused with the
    error that names the status. *)
Theorem New_persists_valid uuid now reqParams reqBody (s : Storage Blob) :
  let mock := candidate uuid now reqParams reqBody in
  (∀ s' id, New HTTP_CODES uuid now reqParams reqBody s = (s', inl id) →
     is_Some (HTTP_CODES !! Status mock) ∧
     ContentType mock ∈ CONTENT_TYPES ∧ Charset mock ∈ CHARSET ∧
     ∃ b, Marshal mock = inl b ∧ Write b (uuid +:+ ".json") s = inl s') ∧
  (∀ s' err, New HTTP_CODES uuid now reqParams reqBody s = (s', inr err) →
     s' = s) ∧
  (reqParams !! "status" = None → Status mock = 0) ∧
  (∀ values, reqParams !! "status" = Some values →
     Atoi (getReqParam values) = None → Status mock = -1) ∧
  (HTTP_CODES !! 0 = None → HTTP_CODES !! (-1) = None →
   (reqParams !! "status" = None ∨
    ∃ values, reqParams !! "status" = Some values ∧
              Atoi (getReqParam values) = None) →
   New HTTP_CODES uuid now reqParams reqBody s =
     (s, inr (ErrStatus (Status mock)))).
Proof.
  intros mock.
  destruct (candidate_built uuid now reqParams reqBody)
    as (Hu & _ & _ & Hst & _). fold mock in Hu, Hst.
  assert (reqParams !! "status" = None → Status mock = 0) as Hmissing.
  { intros Hnone. by rewrite Hst; unfold paramStatus; rewrite Hnone. }
  assert (∀ values, reqParams !! "status" = Some values →
     Atoi (getReqParam values) = None → Status mock = -1) as Hbad.
  { intros values Hsome Hatoi.
    rewrite Hst; unfold paramStatus, Int. by rewrite Hsome, Hatoi. }
  split; [|split; [|split; [done|split; [done|]]]].
  - intros s' id. unfold New. fold mock.
    destruct (HTTP_CODES !! Status mock) as [text|] eqn:Hcode; [|done].
    destruct (Exist CONTENT_TYPES (ContentType mock)) eqn:Hct; [|done].
    destruct (Exist CHARSET (Charset mock)) eqn:Hcs; [|done]. simpl.
    destruct (Marshal mock) as [b|] eqn:Hb; [|done].
    rewrite Hu.
    destruct (Write b (uuid +:+ ".json") s) as [s''|] eqn:Hw; [|done].
    intros [= <- <-].
    apply Exist_true in Hct. apply Exist_true in Hcs.
    split; [by eexists|]. split; [done|]. split; [done|].
    by exists b.
  - intros s' err. apply New_error.
  - intros H0 H1 Hcase.
    apply (New_invalid uuid now reqParams reqBody s). fold mock.
    destruct Hcase as [Hnone|(values & Hsome & Hatoi)].
    + by rewrite Hmissing.
    + by rewrite (Hbad values).
Qed.

(** C1 (amended). When the parameters of a request describe a record [c]
    whose status is a supported code, whose content type is in
    [CONTENT_TYPES] and whose charset is in [CHARSET], and the names and
    values of its headers are valid UTF-8 (as are the identifier and the
    time that [New] draws), then on a storage where the new identifier is
    fresh, with a format that reads valid UTF-8 text back as written:
    whenever [New] returns an identifier, it is the new one and [Get] of it
    returns a record that [Equals] [c] (created at the given time, under
    that identifier); and [New] does return it once the record marshals and
    the directory takes writes. *)
Theorem New_then_Get `{!JsonRoundTrip Blob} uuid now reqParams
    (c : MockedRequest) (s : Storage Blob) :
  describes reqParams c →
  is_Some (HTTP_CODES !! Status c) →
  ContentType c ∈ CONTENT_TYPES →
  Charset c ∈ CHARSET →
  ValidString uuid = true →
  ValidString now = true →
  (∀ headers, Headers c = Some headers → validHeaders headers) →
  files s !! (uuid +:+ ".json") = None →
  (∀ s' id, New HTTP_CODES uuid now reqParams (Body c) s = (s', inl id) →
     id = uuid ∧
     ∃ m, Get s' id = inl m ∧ Equals m c = true ∧
          UUID m = uuid ∧ CreatedAt m = now) ∧
  (writable s = true →
   is_Some (ok (Marshal (candidate uuid now reqParams (Body c)))) →
   ∃ s', New HTTP_CODES uuid now reqParams (Body c) s = (s', inl uuid)).
Proof.
  intros ((status & rest1 & Hps & Hatoi) & (rest2 & Hpct) & (rest3 & Hpcs) & Hch)
         Hcode Hct Hcs Hvu Hvn Hvh Hfresh.
  set (mock := candidate uuid now reqParams (Body c)).
  destruct (candidate_built uuid now reqParams (Body c))
    as (Hu & Hc & Hb & Hst & Hmct & Hmcs & Hh).
  fold mock in Hu, Hc, Hb, Hst, Hmct, Hmcs, Hh.
  assert (Status mock = Status c) as Est.
  { rewrite Hst. unfold paramStatus, Int. rewrite Hps. simpl. by rewrite Hatoi. }
  assert (ContentType mock = ContentType c) as Ect.
  { rewrite Hmct. unfold paramContentType. by rewrite Hpct. }
  assert (Charset mock = Charset c) as Ecs.
  { rewrite Hmcs. unfold paramCharset. by rewrite Hpcs. }
  assert (Headers mock = Headers c) as Eh by (by rewrite Hh, Hch).
  assert (validText mock) as Hvalid.
  { unfold validText. rewrite Hu, Hc, Ect, Ecs, Eh.
    split; [done|]. split; [done|].
    split; [by apply CONTENT_TYPES_valid|].
    split; [by apply CHARSET_valid|done]. }
  assert (New HTTP_CODES uuid now reqParams (Body c) s =
          match Marshal mock with
          | inr err => (s, inr err)
          | inl b =>
              match Write b (uuid +:+ ".json") s with
              | inr err => (s, inr err)
              | inl s' => (s', inl uuid)
              end
          end) as HNew.
  { apply New_valid; fold mock; by rewrite ?Est, ?Ect, ?Ecs. }
  rewrite HNew. split.
  - intros s' id.
    destruct (Marshal mock) as [b|] eqn:Hm; [|done].
    destruct (Write b (uuid +:+ ".json") s) as [s''|] eqn:Hw; [|done].
    intros [= <- <-]. split; [done|].
    apply Write_inl in Hw as (_ & _ & _ & f & Hf & Hfiles & Hflags).
    rewrite Hfresh in Hflags. destruct Hflags as [Hr _].
    exists mock. split.
    + unfold Get, get, Load. rewrite Hfiles, lookup_insert_eq, Hr, Hf.
      by rewrite (Unmarshal_Marshal_valid _ _ Hm Hvalid).
    + split; [|done]. apply Equals_iff. by rewrite Est, Ect, Ecs, Eh, Hb.
  - intros Hw [b Hm].
    destruct (Marshal mock) as [b'|]; [|done].
    destruct (Write_writable b' (uuid +:+ ".json") s Hw) as [s' ->].
    by exists s'.
Qed.

(** *** [List] *)

Lemma loadEntry_json (s : Storage Blob) id :
  loadEntry s (id +:+ ".json") = get UnmarshalLight s id.
Proof.
  unfold loadEntry. rewrite length_app. simpl.
  replace (String.length id + 5 - 5)%nat with (String.length id) by lia.
  rewrite substring_app_l.
  destruct (5 <? String.length id + 5)%nat eqn:Hlen; [done|].
  apply Nat.ltb_ge in Hlen.
  destruct id; [done|]. simpl in Hlen. lia.
Qed.

Lemma loadEntry_summaryOf (s : Storage Blob) id :
  ok (loadEntry s (id +:+ ".json")) = files s !! (id +:+ ".json") ≫= summaryOf.
Proof.
  rewrite loadEntry_json. unfold get, Load, summaryOf.
  destruct (files s !! (id +:+ ".json")) as [f|]; simpl; [|done].
  destruct (readable f); [|done].
  by destruct (UnmarshalLight (content f)).
Qed.

Lemma List_unlistable (s : Storage Blob) :
  listable s = false → List s = inr (ErrPath "open" "").
Proof. intros Hl. unfold List, ReadDir. by rewrite Hl. Qed.

(** [List] of a directory that can be listed: no error, and the entries that
    load, newest first. *)
Lemma List_listable (s : Storage Blob) :
  listable s = true →
  ∃ l, List s = inl l ∧ StronglySorted newestFirst l ∧
       l ≡ₚ omap (λ name, ok (loadEntry s name)) (map_to_list (files s)).*1.
Proof.
  intros Hl. unfold List, ReadDir. rewrite Hl.
  eexists. split; [done|]. rewrite OrElse_nonempty. split.
  - apply SortT_CreatedAt_sorted.
  - unfold SortT. rewrite SliceStable_Permutation, TransformT_omap.
    by rewrite SliceStable_Permutation.
Qed.

Lemma omap_entries (s : Storage Blob) :
  namedJson s →
  omap (λ name, ok (loadEntry s name)) (map_to_list (files s)).*1 =
  summaries s.
Proof.
  intros Hnamed. apply omap_fst_ext.
  intros [name f] Hin. apply elem_of_map_to_list in Hin. simpl.
  destruct (Hnamed name) as [id ->]; [by eexists|].
  by rewrite loadEntry_summaryOf, Hin.
Qed.

Lemma List_namedJson (s : Storage Blob) :
  listable s = true → namedJson s →
  ∃ l, List s = inl l ∧ StronglySorted newestFirst l ∧ l ≡ₚ summaries s.
Proof.
  intros Hl Hnamed. destruct (List_listable s Hl) as (l & HL & Hs & Hp).
  exists l. repeat split; try done. by rewrite Hp, omap_entries.
Qed.

Lemma summaries_length_le (s : Storage Blob) :
  (length (summaries s) ≤ size (files s))%nat.
Proof.
  unfold summaries. rewrite <- length_map_to_list. apply omap_length_le.
Qed.

Lemma summaries_length (s : Storage Blob) :
  (∀ name f, files s !! name = Some f → is_Some (summaryOf f)) →
  length (summaries s) = size (files s).
Proof.
  intros Hall. unfold summaries. rewrite <- length_map_to_list.
  apply omap_length_all.
  intros [name f] Hin%elem_of_map_to_list. by apply (Hall name).
Qed.

(** C8. [List] of a directory that can be listed and holds no file is the
    empty sequence, with no error. *)
Theorem List_empty (s : Storage Blob) :
  listable s = true → files s = ∅ → List s = inl [].
Proof.
  intros Hl He. unfold List, ReadDir. rewrite Hl, He.
  by rewrite map_to_list_empty.
Qed.

(** C4. In a directory that can be listed and in which every file is the
    readable document of a record under a name [<id>.json], [List] returns,
    with no error, exactly one summary per file (a permutation of the
    summaries of the files, as many as there are files), ordered by
    [CreatedAt] descending: no summary stands before one created later. The
    result is a function of the directory, so ties come in a determined
    order. *)
Theorem List_newest_first (s : Storage Blob) :
  listable s = true →
  namedJson s →
  (∀ name f, files s !! name = Some f → is_Some (summaryOf f)) →
  ∃ l, List s = inl l ∧
       l ≡ₚ summaries s ∧
       length l = size (files s) ∧
       StronglySorted newestFirst l.
Proof.
  intros Hl Hnamed Hall.
  destruct (List_namedJson s Hl Hnamed) as (l & HL & Hs & Hp).
  exists l. repeat split; try done.
  by rewrite Hp, summaries_length.
Qed.

(** C5 (amended). [List] fails exactly when the directory cannot be listed.
    A file that cannot be read or decoded into a summary is no error: in a
    directory that can be listed, whose entries are called [<id>.json],
    [List] returns the summaries of the files that do decode, newest first,
    and leaves the others out. *)
Theorem List_skips_unreadable (s : Storage Blob) :
  (listable s = false ↔ ∃ err, List s = inr err) ∧
  (listable s = true → namedJson s →
   ∃ l, List s = inl l ∧ l ≡ₚ summaries s ∧
        (length l ≤ size (files s))%nat ∧
        StronglySorted newestFirst l ∧
        ∀ m, m ∈ l ↔
          ∃ id f, files s !! (id +:+ ".json") = Some f ∧ summaryOf f = Some m).
Proof.
  split.
  - split.
    + intros Hl. eexists. by apply List_unlistable.
    + intros [err Herr]. destruct (listable s) eqn:Hl; [|done].
      destruct (List_listable s Hl) as (l & HL & _). congruence.
  - intros Hl Hnamed.
    destruct (List_namedJson s Hl Hnamed) as (l & HL & Hs & Hp).
    exists l. repeat split; try done.
    + rewrite Hp. apply summaries_length_le.
    + rewrite Hp. unfold summaries. rewrite list_elem_of_omap.
      intros ([name f] & Hin%elem_of_map_to_list & Hm). simpl in Hm.
      destruct (Hnamed name) as [id ->]; [by eexists|]. by exists id, f.
    + intros (id & f & Hf & Hm). rewrite Hp.
      unfold summaries. rewrite list_elem_of_omap.
      exists (id +:+ ".json", f). split; [|done].
      by apply elem_of_map_to_list.
Qed.

(** *** Consistent directories *)

Lemma consistent_lookup (s : Storage Blob) name f :
  consistent s → files s !! name = Some f →
  removable f = true ∧ ∃ m, summaryOf f = Some m ∧ name = fileOf m.
Proof.
  intros Hc Hf. destruct (Hc name f Hf) as [Hr Hm]. split; [done|].
  apply fmap_Some in Hm as (m & Hm & ->). by exists m.
Qed.

Lemma consistent_namedJson (s : Storage Blob) : consistent s → namedJson s.
Proof.
  intros Hc name [f Hf].
  destruct (consistent_lookup s name f Hc Hf) as (_ & m & _ & ->).
  by eexists.
Qed.

Lemma consistent_decodes (s : Storage Blob) :
  consistent s → ∀ name f, files s !! name = Some f → is_Some (summaryOf f).
Proof.
  intros Hc name f Hf.
  destruct (consistent_lookup s name f Hc Hf) as (_ & m & -> & _). by eexists.
Qed.

Lemma consistent_subseteq (s s' : Storage Blob) :
  consistent s → files s' ⊆ files s → consistent s'.
Proof.
  intros Hc Hsub name f Hf. apply (Hc name f).
  by eapply lookup_weaken.
Qed.


Lemma elem_of_summaries (s : Storage Blob) m :
  consistent s →
  m ∈ summaries s ↔ ∃ f, files s !! fileOf m = Some f ∧ summaryOf f = Some m.
Proof.
  intros Hc. unfold summaries. rewrite list_elem_of_omap. split.
  - intros ([name f] & Hin%elem_of_map_to_list & Hm). simpl in Hm.
    destruct (consistent_lookup s name f Hc Hin) as (_ & m' & Hm' & ->).
    exists f. by simplify_eq.
  - intros (f & Hf & Hm). exists (fileOf m, f). split; [|done].
    by apply elem_of_map_to_list.
Qed.

Lemma fileOf_summaries (s : Storage Blob) :
  consistent s → fileOf <$> summaries s = (map_to_list (files s)).*1.
Proof.
  intros Hc. unfold summaries.
  assert (∀ nf, nf ∈ map_to_list (files s) →
            ∃ m, summaryOf nf.2 = Some m ∧ fileOf m = nf.1) as Hall.
  { intros [name f] Hin%elem_of_map_to_list.
    destruct (consistent_lookup s name f Hc Hin) as (_ & m & Hm & ->).
    by exists m. }
  induction (map_to_list (files s)) as [|nf l IH]; [done|].
  csimpl. destruct (Hall nf) as (m & -> & <-); [left|].
  csimpl. f_equal. apply IH. intros nf' Hnf'. apply Hall. by right.
Qed.

Lemma NoDup_fileOf_summaries (s : Storage Blob) :
  consistent s → NoDup (fileOf <$> summaries s).
Proof.
  intros Hc. rewrite fileOf_summaries by done. apply NoDup_fst_map_to_list.
Qed.

(** *** [Clean] *)

Lemma Remove_inl name (s s' : Storage Blob) :
  Remove name s = inl s' ↔
  ∃ f, files s !! name = Some f ∧ removable f = true ∧
       s' = withFiles s (delete name (files s)).
Proof.
  unfold Remove. split.
  - destruct (files s !! name) as [f|]; [|done].
    destruct (removable f) eqn:Hr; [|done].
    intros [= <-]. by exists f.
  - intros (f & -> & -> & ->). done.
Qed.

(** One turn of the loop of [Clean] either removes one file and counts it, or
    fails and changes nothing. *)
Lemma removeOne_cases (acc : Storage Blob * Z) (m : MockedRequestLight) :
  (∃ f, files acc.1 !! fileOf m = Some f ∧ removable f = true ∧
        removeOne acc m =
          (withFiles acc.1 (delete (fileOf m) (files acc.1)), acc.2 + 1)) ∨
  ((∃ err, Remove (fileOf m) acc.1 = inr err) ∧ removeOne acc m = acc).
Proof.
  unfold removeOne. fold (fileOf m).
  destruct (Remove (fileOf m) acc.1) as [s'|err] eqn:Hrm.
  - left. apply Remove_inl in Hrm as (f & Hf & Hr & ->). by exists f.
  - right. split; [by exists err|done].
Qed.

(** The loop of [Clean] counts exactly the files it removes, and touches
    nothing else. *)
Lemma foldl_removeOne_count (targets : list MockedRequestLight)
    (acc : Storage Blob * Z) :
  let acc' := foldl removeOne acc targets in
  acc'.2 - acc.2 =
    Z.of_nat (size (files acc.1)) - Z.of_nat (size (files acc'.1)) ∧
  files acc'.1 ⊆ files acc.1 ∧
  listable acc'.1 = listable acc.1 ∧ writable acc'.1 = writable acc.1.
Proof.
  revert acc. induction targets as [|m targets IH]; intros acc; simpl.
  - repeat split; [lia|done].
  - destruct (IH (removeOne acc m)) as (Hn & Hsub & Hl & Hw).
    destruct (removeOne_cases acc m) as [(f & Hf & Hr & Heq)|[_ Heq]];
      rewrite Heq in Hn, Hsub, Hl, Hw |- *; [|done].
    simpl in *. repeat split; try done.
    + rewrite map_size_delete_Some in Hn by (by eexists).
      assert (size (files acc.1) ≠ 0%nat) as Hne.
      { intros Hz. apply map_size_empty_inv in Hz. by rewrite Hz in Hf. }
      lia.
    + etrans; [exact Hsub|]. apply delete_subseteq.
Qed.

(** The loop of [Clean] over targets whose files are all there and can all
    be removed: it removes them all and counts them all. *)
Lemma foldl_removeOne_all (targets : list MockedRequestLight)
    (s0 : Storage Blob) (n0 : Z) :
  NoDup (fileOf <$> targets) →
  (∀ m, m ∈ targets →
     ∃ f, files s0 !! fileOf m = Some f ∧ removable f = true) →
  ∃ s1, foldl removeOne (s0, n0) targets =
          (s1, n0 + Z.of_nat (length targets)) ∧
        listable s1 = listable s0 ∧
        ∀ name, files s1 !! name =
          if bool_decide (name ∈ fileOf <$> targets) then None
          else files s0 !! name.
Proof.
  revert s0 n0. induction targets as [|m targets IH]; intros s0 n0 Hnd Hall.
  - exists s0. simpl. split; [f_equal; lia|]. split; done.
  - rewrite fmap_cons in Hnd. apply NoDup_cons in Hnd as [Hm Hnd].
    destruct (Hall m) as (f & Hf & Hr); [left|].
    destruct (removeOne_cases (s0, n0) m) as [(f' & _ & _ & Heq)|[[err He] _]].
    2: { simpl in He. unfold Remove in He. by rewrite Hf, Hr in He. }
    simpl in Heq.
    destruct (IH (withFiles s0 (delete (fileOf m) (files s0))) (n0 + 1) Hnd)
      as (s1 & Hfold & Hl & Hlook).
    { intros m' Hm'. destruct (Hall m') as (f'' & Hf'' & Hr''); [by right|].
      exists f''. split; [|done]. simpl.
      rewrite lookup_delete_ne; [done|].
      intros Heq'. apply Hm. rewrite Heq'. by apply list_elem_of_fmap_2. }
    exists s1. simpl. rewrite Heq, Hfold.
    split; [f_equal; lia|]. split; [done|].
    intros name. rewrite Hlook. simpl.
    destruct (decide (name = fileOf m)) as [->|Hne].
    + rewrite lookup_delete_eq.
      rewrite (bool_decide_eq_true_2 (fileOf m ∈ fileOf m :: _)) by left.
      by case_bool_decide.
    + rewrite lookup_delete_ne by done.
      case_bool_decide as Hin; case_bool_decide as Hin'; try done.
      * exfalso. apply Hin'. by right.
      * exfalso. apply elem_of_cons in Hin' as [?|?]; done.
Qed.

(** C7. While [List] succeeds, [Clean] reports no error whatever becomes of
    the removals: a turn whose [os.Remove] fails changes neither the
    directory nor the count, and the count returned is the number of files
    that left the directory. An error of [List] is returned as the error of
    [Clean], with the count [0] and the directory untouched. *)
Theorem Clean_best_effort (s : Storage Blob) (maxLimit : Z) :
  (∀ l, List s = inl l →
     ∃ s' nb, Clean maxLimit s = (s', (nb, None)) ∧
       nb = Z.of_nat (size (files s)) - Z.of_nat (size (files s')) ∧
       files s' ⊆ files s) ∧
  (∀ (acc : Storage Blob * Z) m err,
     Remove (fileOf m) acc.1 = inr err → removeOne acc m = acc) ∧
  (∀ err, 1 ≤ maxLimit → List s = inr err →
     Clean maxLimit s = (s, (0, Some err))).
Proof.
  split; [|split].
  - intros l HL. unfold Clean. rewrite HL.
    destruct (maxLimit <? 1); [exists s, 0; repeat split; [lia|done]|].
    destruct (Z.of_nat (length l) - maxLimit <? 1);
      [exists s, 0; repeat split; [lia|done]|].
    set (targets := drop _ l).
    pose proof (foldl_removeOne_count targets (s, 0)) as Hcount.
    destruct (foldl removeOne (s, 0) targets) as [s' nb].
    simpl in Hcount. destruct Hcount as (Hn & Hsub & _).
    exists s', nb. repeat split; [lia|done].
  - intros acc m err Hrm. unfold removeOne. fold (fileOf m). by rewrite Hrm.
  - intros err Hlimit HL. unfold Clean. rewrite HL.
    destruct (maxLimit <? 1) eqn:Hlt; [|done].
    apply Z.ltb_lt in Hlt. lia.
Qed.

(** C2. [Clean] with a limit below [1] removes nothing and returns [0] with
    no error, on every directory. On a directory that can be listed and holds
    [n] files it removes nothing when [n] is at most the limit. On a
    consistent directory with a limit from [1] to [n - 1] it returns
    [n - limit] with no error, having removed the files of the last
    [n - limit] summaries of [List] (the oldest) and no other, so that [limit]
    files are left and a following [List] returns the first [limit] summaries
    of the former one (the most recent), in some order of the ties. *)
Theorem Clean_keeps_most_recent (s : Storage Blob) (maxLimit : Z) :
  let n := Z.of_nat (size (files s)) in
  (maxLimit < 1 → Clean maxLimit s = (s, (0, None))) ∧
  (listable s = true → n ≤ maxLimit → Clean maxLimit s = (s, (0, None))) ∧
  (listable s = true → consistent s → 1 ≤ maxLimit < n →
   ∃ l s',
     List s = inl l ∧ Z.of_nat (length l) = n ∧
     Clean maxLimit s = (s', (n - maxLimit, None)) ∧
     (∀ name, files s' !! name =
        if bool_decide (name ∈ fileOf <$> drop (Z.to_nat maxLimit) l)
        then None else files s !! name) ∧
     Z.of_nat (size (files s')) = maxLimit ∧
     ∃ l', List s' = inl l' ∧ l' ≡ₚ take (Z.to_nat maxLimit) l).
Proof.
  intros n. split; [|split].
  - intros Hlt. unfold Clean. by rewrite (proj2 (Z.ltb_lt _ _) Hlt).
  - intros Hl Hle. unfold Clean.
    destruct (maxLimit <? 1); [done|].
    destruct (List_listable s Hl) as (l & -> & _ & Hp).
    assert (length l ≤ size (files s))%nat as Hlen.
    { rewrite Hp, <- length_map_to_list, <- (length_fmap fst).
      apply omap_length_le. }
    rewrite (proj2 (Z.ltb_lt (Z.of_nat (length l) - maxLimit) 1)); [done|].
    unfold n in Hle. lia.
  - intros Hl Hc [Hlo Hhi].
    destruct (List_namedJson s Hl (consistent_namedJson s Hc))
      as (l & HL & Hs & Hp).
    assert (length l = size (files s)) as Hlen.
    { rewrite Hp. apply summaries_length. by apply consistent_decodes. }
    set (k := Z.to_nat maxLimit).
    assert (NoDup (fileOf <$> l)) as Hnd.
    { rewrite Hp. by apply NoDup_fileOf_summaries. }
    assert (l = take k l ++ drop k l) as Hsplit by (by rewrite take_drop).
    assert (NoDup (fileOf <$> take k l) ∧
            (∀ x, x ∈ fileOf <$> take k l → x ∉ fileOf <$> drop k l) ∧
            NoDup (fileOf <$> drop k l)) as (Hnd1 & Hdisj & Hnd2).
    { apply NoDup_app. by rewrite <- fmap_app, <- Hsplit. }
    destruct (foldl_removeOne_all (drop k l) s 0 Hnd2)
      as (s' & Hfold & Hl' & Hlook).
    { intros m Hm. assert (m ∈ summaries s) as Hin.
      { rewrite <- Hp, Hsplit. apply elem_of_app. by right. }
      apply elem_of_summaries in Hin as (f & Hf & _); [|done].
      exists f. split; [done|].
      by destruct (consistent_lookup s _ f Hc Hf). }
    assert (files s' ⊆ files s) as Hsub.
    { apply map_subseteq_spec. intros name f. rewrite Hlook.
      by case_bool_decide. }
    assert (consistent s') as Hc' by (by eapply consistent_subseteq).
    assert (summaries s' ≡ₚ take k l) as Hp'.
    { apply NoDup_Permutation.
      - eapply NoDup_fmap_1. by apply NoDup_fileOf_summaries.
      - by eapply NoDup_fmap_1.
      - intros m. rewrite elem_of_summaries by done. split.
        + intros (f & Hf & Hm). rewrite Hlook in Hf.
          case_bool_decide as Hdel; [done|].
          assert (m ∈ l) as Hin.
          { rewrite Hp. apply elem_of_summaries; [done|]. by exists f. }
          rewrite Hsplit in Hin. apply elem_of_app in Hin as [Hin|Hin]; [done|].
          exfalso. apply Hdel. by apply list_elem_of_fmap_2.
        + intros Hin.
          assert (m ∈ summaries s) as Hin'.
          { rewrite <- Hp, Hsplit. apply elem_of_app. by left. }
          apply elem_of_summaries in Hin' as (f & Hf & Hm); [|done].
          exists f. split; [|done]. rewrite Hlook.
          rewrite bool_decide_eq_false_2; [done|].
          apply Hdisj. by apply list_elem_of_fmap_2. }
    assert (length (drop k l) = (size (files s) - k)%nat) as Hdrop.
    { rewrite length_drop. lia. }
    exists l, s'. split; [done|]. split; [unfold n; lia|]. split.
    { unfold Clean. rewrite (proj2 (Z.ltb_ge _ _)) by lia. rewrite HL.
      rewrite (proj2 (Z.ltb_ge _ _)) by lia.
      replace (Z.to_nat (Z.of_nat (length l) -
                 (Z.of_nat (length l) - maxLimit))) with k by (unfold k; lia).
      rewrite Hfold. do 2 f_equal. unfold n. rewrite Hdrop. unfold k. lia. }
    split; [done|]. split.
    { rewrite <- (summaries_length s') by (by apply consistent_decodes).
      rewrite Hp', length_take. unfold k. lia. }
    destruct (List_namedJson s') as (l' & HL' & _ & Hpl').
    { by rewrite Hl'. }
    { by apply consistent_namedJson. }
    exists l'. split; [done|]. by rewrite Hpl'.
Qed.

End Properties.

(** ** The reference instance, and the store run on it *)

#[global] Instance Document_JsonLaws : JsonLaws Document.
Proof. split; intros m b [= <-]; reflexivity. Qed.

Lemma threeRecords_consistent : consistent threeRecords.
Proof. unfold consistent. by_compute. Qed.


Lemma helloParams_describes : describes helloParams helloRecord.
Proof.
  split; [|split; [|split]].
  - exists "200", []. split; vm_compute; reflexivity.
  - exists []. vm_compute; reflexivity.
  - exists []. vm_compute; reflexivity.
  - vm_compute; reflexivity.
Qed.

#[global] Instance JsonFile_JsonRoundTrip : JsonRoundTrip JsonFile.
Proof.
  split. intros m b [= <-] Hv. simpl. by rewrite (coerced_valid m Hv).
Qed.

Lemma helloRecord_validHeaders :
  ∀ headers, Headers helloRecord = Some headers → validHeaders headers.
Proof. intros headers [= <-]. unfold validHeaders. by_compute. Qed.

(** C1 as stated fails: the request [binParams] describes the record
    [binRecord], which is valid, and on the format as [encoding/json] writes
    it [New] returns the identifier, but [Get] of it returns a record that
    does not [Equals] [binRecord]: the header [x-bin] comes back as U+FFFD. *)
Lemma New_then_Get_counterexample :
  describes binParams binRecord ∧
  is_Some (someCodes !! Status binRecord) ∧
  ContentType binRecord ∈ CONTENT_TYPES ∧
  Charset binRecord ∈ CHARSET ∧
  ∃ s' m,
    New someCodes "0b1f" "2024-05-01 10:00:00" binParams (Body binRecord)
      emptyJsonDir = (s', inl "0b1f") ∧
    Get s' "0b1f" = inl m ∧
    Equals m binRecord = false ∧
    Headers m = Some {[ "x-language" := "golang"; "x-bin" := replacement ]}.
Proof.
  split; [|split; [|split; [|split]]].
  - split; [|split; [|split]].
    + exists "200", []. split; vm_compute; reflexivity.
    + exists []. vm_compute; reflexivity.
    + exists []. vm_compute; reflexivity.
    + vm_compute; reflexivity.
  - eexists. vm_compute. reflexivity.
  - by_compute.
  - by_compute.
  - eexists _, _. split; [vm_compute; reflexivity|].
    split; [vm_compute; reflexivity|].
    split; vm_compute; reflexivity.
Qed.

(** C1 (amended) at a concrete request, on the format as [encoding/json]
    writes it: on the empty directory [New] returns the identifier and [Get]
    of it returns a record that [Equals] the one asked for. *)
Lemma New_then_Get_witness :
  ∃ s', New someCodes "0b1f" "2024-05-01 10:00:00" helloParams
          (Body helloRecord) emptyJsonDir = (s', inl "0b1f") ∧
        ∃ m, Get s' "0b1f" = inl m ∧ Equals m helloRecord = true.
Proof.
  destruct (New_then_Get someCodes "0b1f" "2024-05-01 10:00:00" helloParams
              helloRecord emptyJsonDir) as [Hget Hnew].
  - exact helloParams_describes.
  - eexists. vm_compute. reflexivity.
  - by_compute.
  - by_compute.
  - vm_compute. reflexivity.
  - vm_compute. reflexivity.
  - exact helloRecord_validHeaders.
  - reflexivity.
  - destruct Hnew as [s' Hs']; [reflexivity|eexists; reflexivity|].
    exists s'. split; [exact Hs'|].
    destruct (Hget s' "0b1f" Hs') as (_ & m & Hm & He & _).
    exists m. split; [exact Hm|exact He].
Defined.


(** C8 at the empty directory. *)
Lemma List_empty_witness : List emptyDir = inl [].
Proof. apply List_empty; reflexivity. Defined.

(** C4 at a directory of three records. *)
Lemma List_newest_first_witness :
  ∃ l, List threeRecords = inl l ∧
       l ≡ₚ summaries threeRecords ∧
       length l = size (files threeRecords) ∧
       StronglySorted newestFirst l.
Proof.
  apply List_newest_first.
  - reflexivity.
  - apply consistent_namedJson, threeRecords_consistent.
  - apply consistent_decodes, threeRecords_consistent.
Defined.

(** What [List] returns there: [c], then [a], then [b]. *)
Example List_threeRecords :
  List threeRecords =
    inl [ summary (record "c" "2024-05-01 10:00:03");
          summary (record "a" "2024-05-01 10:00:02");
          summary (record "b" "2024-05-01 10:00:01") ].
Proof. vm_compute. reflexivity. Qed.

(** C5 as stated fails: the directory [oneCorrupt] holds a file that does not
    decode, and [List] returns the three other summaries with no error. *)
Lemma List_corrupt_counterexample :
  (∃ f, files oneCorrupt !! "d.json" = Some f ∧
        UnmarshalLight (content f) = inr (ErrJSON "invalid character")) ∧
  List oneCorrupt =
    inl [ summary (record "c" "2024-05-01 10:00:03");
          summary (record "a" "2024-05-01 10:00:02");
          summary (record "b" "2024-05-01 10:00:01") ].
Proof.
  split.
  - eexists. split; vm_compute; reflexivity.
  - vm_compute. reflexivity.
Qed.

(** C5 (amended) at that directory. *)
Lemma List_skips_unreadable_witness :
  ∃ l, List oneCorrupt = inl l ∧ (length l ≤ 4)%nat ∧
       StronglySorted newestFirst l.
Proof.
  destruct (List_skips_unreadable oneCorrupt) as [_ Hl].
  destruct Hl as (l & HL & _ & Hlen & Hs & _).
  - reflexivity.
  - intros name [f Hf]. unfold oneCorrupt in Hf. simpl in Hf.
    apply lookup_insert_Some in Hf as [[<- _]|[_ Hf]];
      [exists "d"; reflexivity|].
    apply (consistent_namedJson threeRecords threeRecords_consistent).
    exists f. exact Hf.
  - exists l. split; [exact HL|]. split; [exact Hlen|exact Hs].
Defined.

(** C3 at a request whose status and content type are both unknown: the
    error names the status. *)
Lemma New_rejects_invalid_witness :
  New someCodes "0b1f" "2024-05-01 10:00:00" unknownParams [] emptyDir =
    (emptyDir, inr (ErrStatus 299)).
Proof.
  destruct (New_rejects_invalid someCodes "0b1f" "2024-05-01 10:00:00"
              unknownParams [] emptyDir) as (Hstatus & _ & _).
  assert (paramStatus unknownParams = 299) as Est
    by (vm_compute; reflexivity).
  rewrite Est in Hstatus. apply Hstatus. vm_compute. reflexivity.
Defined.

(** C10 as stated fails: a request with no [status] parameter is refused for
    the status [0], not [-1]. *)
Lemma New_missing_status_counterexample :
  delete "status" helloParams !! "status" = None ∧
  Status (candidate "0b1f" "2024-05-01 10:00:00"
            (delete "status" helloParams) []) = 0 ∧
  New someCodes "0b1f" "2024-05-01 10:00:00"
    (delete "status" helloParams) [] emptyDir =
    (emptyDir, inr (ErrStatus 0)) ∧
  Error (ErrStatus 0) = "status {0} does not exist".
Proof. repeat split; vm_compute; reflexivity. Qed.

(** C10 (amended) at a request whose [status] is not a number: the status is
    [-1] and the request is refused. *)
Lemma New_persists_valid_witness :
  New someCodes "0b1f" "2024-05-01 10:00:00"
    (<["status" := ["OK"]]> helloParams) [] emptyDir =
    (emptyDir,
     inr (ErrStatus (Status (candidate "0b1f" "2024-05-01 10:00:00"
                               (<["status" := ["OK"]]> helloParams) [])))).
Proof.
  destruct (New_persists_valid someCodes "0b1f" "2024-05-01 10:00:00"
              (<["status" := ["OK"]]> helloParams) [] emptyDir)
    as (_ & _ & _ & _ & Hrefused).
  apply Hrefused.
  - vm_compute. reflexivity.
  - vm_compute. reflexivity.
  - right. exists ["OK"]. split; vm_compute; reflexivity.
Defined.

(** The statuses of a few requests: a missing parameter, a parameter with no
    value, one that is no number, and a number. *)
Example status_of_requests :
  paramStatus (delete "status" helloParams) = 0 ∧
  paramStatus (<["status" := []]> helloParams) = -1 ∧
  paramStatus (<["status" := ["OK"]]> helloParams) = -1 ∧
  paramStatus (<["status" := ["+404"; "200"]]> helloParams) = 404.
Proof. repeat split; vm_compute; reflexivity. Qed.

(** C7 at a directory where the file of the oldest record cannot be removed:
    [Clean] to one record removes the other candidate only, counts [1] and
    reports no error. *)
Lemma Clean_best_effort_witness :
  ∃ s' nb, Clean 1 oneLocked = (s', (nb, None)) ∧
    nb = Z.of_nat (size (files oneLocked)) - Z.of_nat (size (files s')) ∧
    files s' ⊆ files oneLocked.
Proof.
  destruct (Clean_best_effort oneLocked 1) as (Hclean & _ & _).
  apply (Hclean [ summary (record "c" "2024-05-01 10:00:03");
                  summary (record "a" "2024-05-01 10:00:02");
                  summary (record "b" "2024-05-01 10:00:01") ]).
  vm_compute. reflexivity.
Defined.

Example Clean_oneLocked :
  (Clean 1 oneLocked).2 = (1, None) ∧
  List (Clean 1 oneLocked).1 =
    inl [ summary (record "c" "2024-05-01 10:00:03");
          summary (record "b" "2024-05-01 10:00:01") ] ∧
  Clean 1 unlistable = (unlistable, (0, Some (ErrPath "open" ""))).
Proof. repeat split; vm_compute; reflexivity. Qed.

(** C2 at the directory of three records and the limit [2]. *)
Lemma Clean_keeps_most_recent_witness :
  ∃ l s',
    List threeRecords = inl l ∧
    (Clean 2 threeRecords).1 = s' ∧
    Z.of_nat (size (files s')) = 2 ∧
    ∃ l', List s' = inl l' ∧ l' ≡ₚ take 2 l.
Proof.
  destruct (Clean_keeps_most_recent threeRecords 2) as (_ & _ & Hclean).
  destruct Hclean as (l & s' & HL & _ & HC & _ & Hsize & l' & HL' & Hp).
  - reflexivity.
  - exact threeRecords_consistent.
  - vm_compute. split; [intros Hgt; discriminate Hgt|reflexivity].
  - exists l, s'. split; [exact HL|]. split; [rewrite HC; reflexivity|].
    split; [exact Hsize|]. exists l'. split; [exact HL'|exact Hp].
Defined.

Example Clean_threeRecords :
  (Clean 2 threeRecords).2 = (1, None) ∧
  List (Clean 2 threeRecords).1 =
    inl [ summary (record "c" "2024-05-01 10:00:03");
          summary (record "a" "2024-05-01 10:00:02") ] ∧
  Clean 0 threeRecords = (threeRecords, (0, None)) ∧
  Clean 3 threeRecords = (threeRecords, (0, None)).
Proof. repeat split; vm_compute; reflexivity. Qed.

(** * More of the code *)

(** ** [Equals] as a relation *)

(** X2. [Equals] is an equivalence on records: every record equals itself,
    the order of the two records does not matter, and it is transitive. *)
Theorem Equals_equivalence (a b c : MockedRequest) :
  Equals a a = true ∧
  Equals a b = Equals b a ∧
  (Equals a b = true → Equals b c = true → Equals a c = true).
Proof.
  split; [by apply Equals_iff|]. split.
  - destruct (Equals a b) eqn:Hab, (Equals b a) eqn:Hba; try done.
    + apply Equals_iff in Hab as (? & ? & ? & ? & ?).
      assert (Equals b a = true) as Hba' by (by apply Equals_iff).
      congruence.
    + apply Equals_iff in Hba as (? & ? & ? & ? & ?).
      assert (Equals a b = true) as Hab' by (by apply Equals_iff).
      congruence.
  - intros (? & ? & ? & ? & ?)%Equals_iff (? & ? & ? & ? & ?)%Equals_iff.
    apply Equals_iff. repeat split; congruence.
Qed.

(** ** The content types that are displayed *)

Lemma prefix_app sub s :
  String.prefix sub s = true ↔ ∃ post, s = sub +:+ post.
Proof.
  revert s. induction sub as [|c sub IH]; intros [|d s]; simpl.
  - split; [intros _; exists ""; reflexivity|done].
  - split; [intros _; exists (String d s); reflexivity|done].
  - split; [done|]. intros [post Hpost]. discriminate Hpost.
  - destruct (ascii_dec c d) as [->|Hne].
    + rewrite IH. split; intros [post Hpost]; exists post.
      * change (String d s = String d (sub +:+ post)). by rewrite Hpost.
      * change (String d s = String d (sub +:+ post)) in Hpost. congruence.
    + split; [done|]. intros [post Hpost].
      change (String d s = String c (sub +:+ post)) in Hpost. congruence.
Qed.

Lemma Contains_app s sub :
  Contains s sub = true ↔ ∃ pre post, s = pre +:+ sub +:+ post.
Proof.
  induction s as [|c s IH].
  - change (Contains "" sub) with (String.prefix sub "" || false).
    rewrite orb_true_iff, prefix_app. split.
    + intros [[post Hpost]|?]; [|done]. exists "", post. exact Hpost.
    + intros (pre & post & Heq). left.
      destruct pre as [|d pre]; [by exists post|discriminate Heq].
  - change (Contains (String c s) sub)
      with (String.prefix sub (String c s) || Contains s sub).
    rewrite orb_true_iff, prefix_app, IH. split.
    + intros [[post Hpost]|(pre & post & ->)].
      * exists "", post. exact Hpost.
      * exists (String c pre), post. reflexivity.
    + intros (pre & post & Heq). destruct pre as [|d pre].
      * left. by exists post.
      * right. change (String c s = String d (pre +:+ sub +:+ post)) in Heq.
        exists pre, post. congruence.
Qed.

Lemma FilterT_sublist {T : Type} (slice : list T) (predicate : T → bool) :
  sublist (FilterT slice predicate) slice.
Proof.
  unfold FilterT. induction slice as [|x l IH]; simpl; [constructor|].
  destruct (predicate x); by constructor.
Qed.

(** X3. A content type is displayed exactly when it is one of
    [CONTENT_TYPES] and is [application/json], [application/xml] or holds
    [text/] somewhere; the displayed types come in the order of
    [CONTENT_TYPES], and [New] accepts each of them as a content type. *)
Theorem IS_DISPLAY_CONTENT_spec :
  (∀ arg, arg ∈ IS_DISPLAY_CONTENT ↔
     arg ∈ CONTENT_TYPES ∧
     (arg = "application/json" ∨ arg = "application/xml" ∨
      ∃ pre post, arg = pre +:+ "text/" +:+ post)) ∧
  sublist IS_DISPLAY_CONTENT CONTENT_TYPES ∧
  (∀ arg, arg ∈ IS_DISPLAY_CONTENT → Exist CONTENT_TYPES arg = true).
Proof.
  assert (∀ arg, arg ∈ IS_DISPLAY_CONTENT ↔
     arg ∈ CONTENT_TYPES ∧
     (arg = "application/json" ∨ arg = "application/xml" ∨
      ∃ pre post, arg = pre +:+ "text/" +:+ post)) as Hiff.
  { intros arg. unfold IS_DISPLAY_CONTENT, FilterT.
    rewrite !list_elem_of_In, filter_In, !orb_true_iff, !String.eqb_eq.
    rewrite Contains_app. tauto. }
  split; [exact Hiff|]. split.
  - apply FilterT_sublist.
  - intros arg Harg. apply Exist_true. by apply Hiff.
Qed.

(** ** More of the store *)

Lemma app_inj_r (u v x : string) : u +:+ x = v +:+ x → u = v.
Proof.
  revert v. induction u as [|c u IH]; intros [|d v] Heq.
  - done.
  - apply (f_equal String.length) in Heq.
    rewrite (length_app (String d v)) in Heq.
    change (String.length x = S (String.length v) + String.length x)%nat in Heq.
    lia.
  - apply (f_equal String.length) in Heq.
    rewrite (length_app (String c u)) in Heq.
    change (S (String.length u) + String.length x = String.length x)%nat in Heq.
    lia.
  - change (String c (u +:+ x) = String d (v +:+ x)) in Heq.
    injection Heq as -> Heq. f_equal. by apply IH.
Qed.

Section MoreProperties.
Context {Blob : Type} `{!Json Blob}.
Variable HTTP_CODES : gmap Z string.

(** *** [New] *)

(** X4. The record that [New] builds takes its identifier, its creation time
    and its body from the call, its content type and charset from the first
    value of the parameter of that name (or [""]), and its headers from the
    other parameters: the header of a name is the first value of the
    parameter of that name, no parameter without a value makes a header, and
    [status], [contentType] and [charset] are never headers. This holds
    whatever the order in which the parameters are ranged over. *)
Theorem New_dispatches_parameters uuid now reqParams reqBody :
  let mock := candidate uuid now reqParams reqBody in
  UUID mock = uuid ∧ CreatedAt mock = now ∧ Body mock = reqBody ∧
  ContentType mock =
    from_option (λ values, default "" (head values)) ""
      (reqParams !! "contentType") ∧
  Charset mock =
    from_option (λ values, default "" (head values)) ""
      (reqParams !! "charset") ∧
  ∃ headers, Headers mock = Some headers ∧
    (∀ name value, headers !! name = Some value ↔
       name ≠ "status" ∧ name ≠ "contentType" ∧ name ≠ "charset" ∧
       ∃ values, reqParams !! name = Some (value :: values)).
Proof.
  intros mock.
  destruct (candidate_built uuid now reqParams reqBody)
    as (Hu & Hc & Hb & _ & Hct & Hcs & Hh). fold mock in Hu, Hc, Hb, Hct, Hcs, Hh.
  split; [done|]. split; [done|]. split; [done|]. split; [|split].
  - rewrite Hct. unfold paramContentType.
    destruct (reqParams !! "contentType") as [[|v values]|]; done.
  - rewrite Hcs. unfold paramCharset.
    destruct (reqParams !! "charset") as [[|v values]|]; done.
  - exists (paramHeaders reqParams). split; [done|].
    intros name value. rewrite paramHeaders_lookup. unfold reserved.
    destruct (String.eqb_spec name "contentType") as [->|Hn1]; simpl.
    { split; [done|]. by intros (_ & ? & _). }
    destruct (String.eqb_spec name "charset") as [->|Hn2]; simpl.
    { split; [done|]. by intros (_ & _ & ? & _). }
    destruct (String.eqb_spec name "status") as [->|Hn3]; simpl.
    { split; [done|]. by intros (? & _). }
    destruct (reqParams !! name) as [[|v values]|]; simpl.
    + split; [done|]. by intros (_ & _ & _ & values & ?).
    + split.
      * intros [= ->]. repeat split; try done. by exists values.
      * intros (_ & _ & _ & values' & [= -> _]). done.
    + split; [done|]. by intros (_ & _ & _ & values & ?).
Qed.

(** X5. On a request that passes the three checks, an error of the
    marshalling or of the write is what [New] returns, with the storage as it
    was; a directory that takes no writes always fails so. When both
    succeed [New] returns the identifier, the file of that identifier holds
    the marshalled record, and every other file is as it was. *)
Theorem New_write_error uuid now reqParams reqBody (s : Storage Blob) :
  let mock := candidate uuid now reqParams reqBody in
  is_Some (HTTP_CODES !! paramStatus reqParams) →
  paramContentType reqParams ∈ CONTENT_TYPES →
  paramCharset reqParams ∈ CHARSET →
  (∀ err, Marshal mock = inr err →
     New HTTP_CODES uuid now reqParams reqBody s = (s, inr err)) ∧
  (∀ b, Marshal mock = inl b → writable s = false →
     New HTTP_CODES uuid now reqParams reqBody s =
       (s, inr (ErrPath "write" (uuid +:+ ".json")))) ∧
  (∀ b, Marshal mock = inl b → writable s = true →
     ∃ s', New HTTP_CODES uuid now reqParams reqBody s = (s', inl uuid) ∧
       (∃ f, files s' !! (uuid +:+ ".json") = Some f ∧ content f = b) ∧
       ∀ name, name ≠ uuid +:+ ".json" → files s' !! name = files s !! name).
Proof.
  intros mock Hst Hct Hcs.
  destruct (candidate_built uuid now reqParams reqBody)
    as (_ & _ & _ & Est & Ect & Ecs & _). fold mock in Est, Ect, Ecs.
  assert (New HTTP_CODES uuid now reqParams reqBody s =
          match Marshal mock with
          | inr err => (s, inr err)
          | inl b =>
              match Write b (uuid +:+ ".json") s with
              | inr err => (s, inr err)
              | inl s' => (s', inl uuid)
              end
          end) as HNew.
  { apply New_valid; fold mock; by rewrite ?Est, ?Ect, ?Ecs. }
  rewrite HNew. split; [|split].
  - by intros err ->.
  - intros b -> Hw. unfold Write. by rewrite Hw.
  - intros b -> Hw.
    destruct (Write_writable b (uuid +:+ ".json") s Hw) as [s' Hs'].
    rewrite Hs'. exists s'. split; [done|].
    apply Write_inl in Hs' as (_ & _ & _ & f & Hf & Hfiles & _).
    rewrite Hfiles. split.
    + exists f. by rewrite lookup_insert_eq.
    + intros name Hne. by rewrite lookup_insert_ne.
Qed.

(** What a successful [New] leaves: the directory with one file written. *)
Lemma New_inl uuid now reqParams reqBody (s s' : Storage Blob) id :
  New HTTP_CODES uuid now reqParams reqBody s = (s', inl id) →
  id = uuid ∧ listable s' = listable s ∧ writable s' = writable s ∧
  ∃ b f, Marshal (candidate uuid now reqParams reqBody) = inl b ∧
         content f = b ∧
         files s' = <[uuid +:+ ".json" := f]> (files s) ∧
         match files s !! (uuid +:+ ".json") with
         | Some old => readable f = readable old ∧ removable f = removable old
         | None => readable f = true ∧ removable f = true
         end.
Proof.
  unfold New.
  set (mock := candidate uuid now reqParams reqBody).
  destruct (candidate_built uuid now reqParams reqBody) as (Hu & _).
  fold mock in Hu. rewrite Hu.
  destruct (HTTP_CODES !! Status mock); [|done].
  destruct (negb (Exist CONTENT_TYPES (ContentType mock))); [done|].
  destruct (negb (Exist CHARSET (Charset mock))); [done|].
  destruct (Marshal mock) as [b|]; [|done].
  destruct (Write b (uuid +:+ ".json") s) as [s''|] eqn:Hw; [|done].
  intros [= <- <-].
  apply Write_inl in Hw as (_ & Hl & Hwr & f & Hf & Hfiles & Hflags).
  split; [done|]. split; [done|]. split; [done|]. by exists b, f.
Qed.

(** X6. [New] touches the file of the new identifier only: after it, [Get] of
    any other identifier returns what it returned before. *)
Theorem New_frame uuid now reqParams reqBody (s s' : Storage Blob) id mockId :
  New HTTP_CODES uuid now reqParams reqBody s = (s', inl id) →
  mockId ≠ uuid →
  Get s' mockId = Get s mockId.
Proof.
  intros (_ & _ & _ & b & f & _ & _ & Hfiles & _)%New_inl Hne.
  unfold Get, get, Load. rewrite Hfiles, lookup_insert_ne; [done|].
  intros Heq. apply Hne. symmetry. by apply app_inj_r in Heq.
Qed.









(** *** [List] and [Clean] *)

(** X9. In a consistent directory that can be listed, [List] names no record
    twice: the identifiers of the summaries it returns are pairwise
    distinct. *)
Theorem List_NoDup (s : Storage Blob) :
  listable s = true →
  consistent s →
  ∃ l, List s = inl l ∧ NoDup (Light.UUID <$> l).
Proof.
  intros Hl Hc.
  destruct (List_namedJson s Hl (consistent_namedJson s Hc))
    as (l & HL & _ & Hp).
  exists l. split; [done|].
  apply (NoDup_fmap_1 (λ uuid, uuid +:+ ".json")).
  rewrite <- list_fmap_compose.
  change ((λ uuid, uuid +:+ ".json") ∘ Light.UUID) with fileOf.
  rewrite Hp. by apply NoDup_fileOf_summaries.
Qed.

(** The loop of [Clean] counts at most one file per target. *)
Lemma foldl_removeOne_bounds (targets : list MockedRequestLight)
    (acc : Storage Blob * Z) :
  acc.2 ≤ (foldl removeOne acc targets).2 ≤ acc.2 + Z.of_nat (length targets).
Proof.
  revert acc. induction targets as [|m targets IH]; intros acc; simpl; [lia|].
  pose proof (IH (removeOne acc m)) as Hrec.
  destruct (removeOne_cases acc m) as [(f & _ & _ & Heq)|[_ Heq]];
    rewrite Heq in Hrec |- *; simpl in *; lia.
Qed.

(** What [Clean] returns, whatever the directory: either nothing happened, or
    the loop ran over the summaries after the first [maxLimit]. *)
Lemma Clean_cases (s : Storage Blob) (maxLimit : Z) :
  (∃ err, Clean maxLimit s = (s, (0, err))) ∨
  (1 ≤ maxLimit ∧
   ∃ l, List s = inl l ∧ maxLimit < Z.of_nat (length l) ∧
        Clean maxLimit s =
          ((foldl removeOne (s, 0) (drop (Z.to_nat maxLimit) l)).1,
           ((foldl removeOne (s, 0) (drop (Z.to_nat maxLimit) l)).2, None))).
Proof.
  unfold Clean.
  destruct (maxLimit <? 1) eqn:Hlt; [left; by eexists|].
  apply Z.ltb_ge in Hlt.
  destruct (List s) as [l|err]; [|left; by eexists].
  destruct (Z.of_nat (length l) - maxLimit <? 1) eqn:Hnb; [left; by eexists|].
  apply Z.ltb_ge in Hnb. right. split; [done|].
  exists l. split; [done|]. split; [lia|].
  replace (Z.to_nat (Z.of_nat (length l) - (Z.of_nat (length l) - maxLimit)))
    with (Z.to_nat maxLimit) by lia.
  by destruct (foldl removeOne (s, 0) (drop (Z.to_nat maxLimit) l)).
Qed.

Lemma List_length_le (s : Storage Blob) l :
  List s = inl l → (length l ≤ size (files s))%nat.
Proof.
  intros HL. destruct (listable s) eqn:Hl.
  - destruct (List_listable s Hl) as (l' & HL' & _ & Hp).
    assert (l' = l) as -> by congruence.
    rewrite Hp, <- length_map_to_list, <- (length_fmap fst).
    apply omap_length_le.
  - rewrite (List_unlistable s Hl) in HL. done.
Qed.

(** X10. [Clean] only removes files: every file it leaves was there before
    with the same content, the flags of the directory are kept, and a
    consistent directory stays consistent. *)
Theorem Clean_only_removes (s : Storage Blob) (maxLimit : Z) :
  let s' := (Clean maxLimit s).1 in
  files s' ⊆ files s ∧
  listable s' = listable s ∧ writable s' = writable s ∧
  (consistent s → consistent s').
Proof.
  intros s'.
  assert (files s' ⊆ files s ∧ listable s' = listable s ∧
          writable s' = writable s) as (Hsub & Hl & Hw).
  { unfold s'. destruct (Clean_cases s maxLimit) as [[err ->]|(_ & l & _ & _ & ->)].
    - done.
    - simpl.
      by destruct (foldl_removeOne_count (drop (Z.to_nat maxLimit) l) (s, 0))
        as (_ & ? & ? & ?). }
  split; [done|]. split; [done|]. split; [done|].
  intros Hc. by eapply consistent_subseteq.
Qed.

(** X11. The count that [Clean] returns is never negative and never more than
    the number of files above the limit, and it is the number of files that
    left the directory; so with a limit of at least [1], [Clean] leaves at
    least [limit] files of a directory that held as many, whatever removals
    fail. *)
Theorem Clean_count_bounds (s : Storage Blob) (maxLimit : Z) :
  let n := Z.of_nat (size (files s)) in
  let s' := (Clean maxLimit s).1 in
  let nb := (Clean maxLimit s).2.1 in
  0 ≤ nb ∧ nb ≤ Z.max 0 (n - maxLimit) ∧
  Z.of_nat (size (files s')) = n - nb ∧
  (1 ≤ maxLimit → Z.min n maxLimit ≤ Z.of_nat (size (files s'))).
Proof.
  intros n s' nb. unfold s', nb.
  destruct (Clean_cases s maxLimit) as [[err ->]|(Hlim & l & HL & Hlen & ->)];
    simpl; [lia|].
  pose proof (List_length_le s l HL) as Hle.
  pose proof (foldl_removeOne_bounds (drop (Z.to_nat maxLimit) l) (s, 0))
    as Hb.
  pose proof (foldl_removeOne_count (drop (Z.to_nat maxLimit) l) (s, 0))
    as (Hcount & _).
  rewrite length_drop in Hb. simpl in Hb, Hcount. unfold n. lia.
Qed.

(** [Clean] of a directory that can be listed and holds no more files than
    the limit does nothing. *)
Lemma Clean_under_limit (s : Storage Blob) (maxLimit : Z) :
  listable s = true →
  Z.of_nat (size (files s)) ≤ maxLimit →
  Clean maxLimit s = (s, (0, None)).
Proof.
  intros Hl Hle.
  destruct (Clean_cases s maxLimit) as [[err Herr]|(_ & l & HL & Hlen & _)].
  - rewrite Herr. do 2 f_equal. unfold Clean in Herr.
    destruct (List_listable s Hl) as (l & HL & _).
    rewrite HL in Herr. repeat case_match; by simplify_eq.
  - pose proof (List_length_le s l HL). lia.
Qed.

(** [Clean] of a consistent directory that holds more files than the limit:
    it removes the files of the summaries after the first [maxLimit], all of
    them and no other. *)
Lemma Clean_removes_tail (s : Storage Blob) (maxLimit : Z) :
  listable s = true → consistent s →
  1 ≤ maxLimit < Z.of_nat (size (files s)) →
  ∃ l s',
    List s = inl l ∧ NoDup (fileOf <$> l) ∧
    Clean maxLimit s =
      (s', (Z.of_nat (size (files s)) - maxLimit, None)) ∧
    listable s' = true ∧
    Z.of_nat (size (files s')) = maxLimit ∧
    ∀ name, files s' !! name =
      if bool_decide (name ∈ fileOf <$> drop (Z.to_nat maxLimit) l)
      then None else files s !! name.
Proof.
  intros Hl Hc [Hlo Hhi].
  destruct (List_namedJson s Hl (consistent_namedJson s Hc))
    as (l & HL & Hs & Hp).
  assert (length l = size (files s)) as Hlen.
  { rewrite Hp. apply summaries_length. by apply consistent_decodes. }
  set (k := Z.to_nat maxLimit).
  assert (NoDup (fileOf <$> l)) as Hnd.
  { rewrite Hp. by apply NoDup_fileOf_summaries. }
  assert (l = take k l ++ drop k l) as Hsplit by (by rewrite take_drop).
  assert (NoDup (fileOf <$> drop k l)) as Hnd2.
  { rewrite Hsplit, fmap_app in Hnd. by apply NoDup_app in Hnd as (_ & _ & ?). }
  destruct (foldl_removeOne_all (drop k l) s 0 Hnd2)
    as (s' & Hfold & Hl' & Hlook).
  { intros m Hm. assert (m ∈ summaries s) as Hin.
    { rewrite <- Hp, Hsplit. apply elem_of_app. by right. }
    apply elem_of_summaries in Hin as (f & Hf & _); [|done].
    exists f. split; [done|].
    by destruct (consistent_lookup s _ f Hc Hf). }
  pose proof (foldl_removeOne_count (drop k l) (s, 0)) as (Hcount & _).
  rewrite Hfold in Hcount. simpl in Hcount.
  rewrite length_drop in Hcount, Hfold.
  exists l, s'. split; [done|]. split; [done|]. split.
  { unfold Clean. rewrite (proj2 (Z.ltb_ge _ _)) by lia. rewrite HL.
    rewrite (proj2 (Z.ltb_ge _ _)) by lia.
    replace (Z.to_nat (Z.of_nat (length l) -
               (Z.of_nat (length l) - maxLimit))) with k by (unfold k; lia).
    rewrite Hfold. do 2 f_equal. unfold k. lia. }
  split; [congruence|]. split; [unfold k in *; lia|done].
Qed.

(** X12. After [Clean] of a consistent directory that holds more files than
    the limit, [Get] of every record among the [limit] most recent ones, and
    of every other identifier that was not listed, returns what it returned
    before, and [Get] of a removed record returns the error of the missing
    file. *)
Theorem Clean_then_Get (s : Storage Blob) (maxLimit : Z) :
  listable s = true → consistent s →
  1 ≤ maxLimit < Z.of_nat (size (files s)) →
  ∃ l, List s = inl l ∧
    let s' := (Clean maxLimit s).1 in
    (∀ m, m ∈ drop (Z.to_nat maxLimit) l →
       Get s' (Light.UUID m) = inr (ErrPath "open" (fileOf m))) ∧
    (∀ mockId, mockId ∉ Light.UUID <$> drop (Z.to_nat maxLimit) l →
       Get s' mockId = Get s mockId).
Proof.
  intros Hl Hc Hlim.
  destruct (Clean_removes_tail s maxLimit Hl Hc Hlim)
    as (l & s' & HL & _ & -> & _ & _ & Hlook).
  exists l. split; [done|]. simpl. split.
  - intros m Hm. unfold Get, get, Load. fold (fileOf m).
    rewrite Hlook, bool_decide_eq_true_2; [done|].
    by apply list_elem_of_fmap_2.
  - intros mockId Hout. unfold Get, get, Load.
    rewrite Hlook, bool_decide_eq_false_2; [done|].
    intros (m & Heq & Hm)%list_elem_of_fmap. apply Hout.
    apply app_inj_r in Heq as ->. by apply list_elem_of_fmap_2.
Qed.

(** X13. On a consistent directory that can be listed, a second [Clean] with
    the same limit removes nothing and returns [0]. *)
Theorem Clean_idempotent (s : Storage Blob) (maxLimit : Z) :
  listable s = true → consistent s →
  let s' := (Clean maxLimit s).1 in
  Clean maxLimit s' = (s', (0, None)).
Proof.
  intros Hl Hc s'. unfold s'.
  destruct (Z.lt_ge_cases maxLimit 1) as [Hlt|Hge].
  { unfold Clean. by rewrite !(proj2 (Z.ltb_lt _ _) Hlt). }
  destruct (Z.le_gt_cases (Z.of_nat (size (files s))) maxLimit) as [Hle|Hgt].
  - rewrite (Clean_under_limit s maxLimit Hl Hle). simpl.
    by apply Clean_under_limit.
  - destruct (Clean_removes_tail s maxLimit Hl Hc)
      as (l & s1 & _ & _ & -> & Hl1 & Hsize & _); [lia|].
    simpl. apply Clean_under_limit; [done|lia].
Qed.

End MoreProperties.

(** ** The rest of the store, run on the reference instance *)

(** X5 at a directory that takes no writes. *)
Lemma New_write_error_witness :
  New someCodes "0b1f" "2024-05-01 10:00:00" helloParams [] readOnlyDir =
    (readOnlyDir, inr (ErrPath "write" "0b1f.json")).
Proof.
  destruct (New_write_error someCodes "0b1f" "2024-05-01 10:00:00"
              helloParams [] readOnlyDir) as (_ & Hwrite & _).
  - eexists. vm_compute. reflexivity.
  - by_compute.
  - by_compute.
  - eapply Hwrite; reflexivity.
Defined.

(** X6 at the directory of three records: the record [a] after a creation. *)
Lemma New_frame_witness :
  Get (New someCodes "0b1f" "2024-05-01 10:00:00" helloParams []
         threeRecords).1 "a" =
  Get threeRecords "a".
Proof.
  eapply (New_frame someCodes "0b1f" "2024-05-01 10:00:00" helloParams []
            threeRecords _ "0b1f" "a").
  - vm_compute. reflexivity.
  - intros Heq. discriminate Heq.
Defined.



Example creates_threeCreations :
  ∃ s', creates someCodes threeCreations emptyDir = inl s' ∧
    List s' =
      inl [ summary (created {| newUUID := "a9d3";
                                newTime := "2024-05-01 10:00:02";
                                newParams := helloParams; newBody := [] |});
            summary (created {| newUUID := "7c2e";
                                newTime := "2024-05-01 10:00:01";
                                newParams := helloParams; newBody := [] |});
            summary (created {| newUUID := "0b1f";
                                newTime := "2024-05-01 10:00:00";
                                newParams := helloParams; newBody := [] |}) ].
Proof. eexists. split; vm_compute; reflexivity. Qed.


(** X9 at the directory of three records. *)
Lemma List_NoDup_witness :
  ∃ l, List threeRecords = inl l ∧ NoDup (Light.UUID <$> l).
Proof.
  apply List_NoDup; [reflexivity|exact threeRecords_consistent].
Defined.

(** X12 at the directory of three records and the limit [2]. *)
Lemma Clean_then_Get_witness :
  ∃ l, List threeRecords = inl l ∧
    let s' := (Clean 2 threeRecords).1 in
    (∀ m, m ∈ drop (Z.to_nat 2) l →
       Get s' (Light.UUID m) = inr (ErrPath "open" (fileOf m))) ∧
    (∀ mockId, mockId ∉ Light.UUID <$> drop (Z.to_nat 2) l →
       Get s' mockId = Get threeRecords mockId).
Proof.
  apply Clean_then_Get.
  - reflexivity.
  - exact threeRecords_consistent.
  - vm_compute. split; [intros Hgt; discriminate Hgt|reflexivity].
Defined.

Example Clean_then_Get_threeRecords :
  Get (Clean 2 threeRecords).1 "b" = inr (ErrPath "open" "b.json") ∧
  Get (Clean 2 threeRecords).1 "a" =
    inl (record "a" "2024-05-01 10:00:02") ∧
  Get threeRecords "missing" = inr (ErrPath "open" "missing.json") ∧
  Get oneCorrupt "d" = inr (ErrJSON "invalid character").
Proof. repeat split; vm_compute; reflexivity. Qed.

(** X13 at the directory of three records and the limit [2]. *)
Lemma Clean_idempotent_witness :
  Clean 2 (Clean 2 threeRecords).1 = ((Clean 2 threeRecords).1, (0, None)).
Proof.
  apply Clean_idempotent; [reflexivity|exact threeRecords_consistent].
Defined.

(** [Clean] when a removal fails: the count is below the number of files
    above the limit, and the limit is still respected from below. *)
Example Clean_count_oneLocked :
  (Clean 1 oneLocked).2.1 = 1 ∧ size (files (Clean 1 oneLocked).1) = 2%nat.
Proof. split; vm_compute; reflexivity. Qed.
